(** * Orderbook spread analyzer: loader, depth aggregation and VWAP sweep

    A shallow embedding of [src/main.cpp] and the properties of its
    row parser, book loader, depth aggregator, VWAP sweeper and
    analytics orchestrator.

    Numeric model.  The program computes with C++ [double].  Two readings
    of a [double] are used.

    - In the parser, the loader, [calcDepth] and [calcStats] a finite
      [double] is an exact rational ([Q]) and the operations are the exact
      ones.  What is stated on this reading depends on comparisons between
      parsed values, on the expressions that the code evaluates and their
      order, and on sums of positive sizes taken in the code's own order of
      accumulation; rounding is outside this reading.  The non-finite
      values that [std::stod] can return (infinities, NaN) are kept apart
      in [fp], because [parseDouble] tests for them.

    - The outcome of a VWAP sweep rests on the test [remaining > 0.0] of a
      remainder obtained by repeated subtraction, so it depends on rounding.
      Module [B64] embeds the sweep a second time over binary64 (the
      primitive floats: IEEE 754 double precision, round to nearest even,
      every operation rounded on its own), and the statements on the
      outcome of a sweep are made there.

    Exceptions.  The program throws [std::invalid_argument] and
    [std::runtime_error] with a message; [error] has one constructor per
    message, carrying the values the message prints. *)

From Stdlib Require Import List String Ascii Bool Arith ZArith QArith Qabs
  Qminmax Qreduction Qpower Permutation Sorted Lia Lqa Floats.
Import ListNotations.

Local Open Scope string_scope.
Local Open Scope Q_scope.
Local Open Scope list_scope.

(** ** Comparisons on rationals as booleans *)

Definition Qltb (x y : Q) : bool := negb (Qle_bool y x).

(** [std::min(a, b)] is [(b < a) ? b : a]. *)
Definition std_min (a b : Q) : Q := if Qltb b a then b else a.

(** ** Data model *)

Inductive Side := BID | ASK.

Record Order := mkOrder {
  side  : Side;
  price : Q;
  size  : Q
}.

Record Orderbook := mkOrderbook {
  bids : list Order;
  asks : list Order
}.

Record Stats := mkStats {
  bestBid : Q; bestAsk : Q; midPrice : Q;
  spread : Q; spreadPct : Q;
  bidDepth : Q; askDepth : Q;
  vwapBuy : Q; vwapSell : Q
}.

(** The sweep that ran out of levels: [calcVWAPBuy] reports "to buy",
    [calcVWAPSell] "to sell". *)
Inductive Sweep := Buy | Sell.

Inductive error :=
| FileOpenError (filename : string)
    (* runtime_error "Cannot open file: '<filename>'" *)
| MalformedRow (lineNumber : Z)
    (* invalid_argument "Line <n> has empty fields." *)
| InvalidSide (raw : string)
    (* invalid_argument "Unknown order side: '<raw>'" *)
| InvalidNumber (fieldName raw : string)
    (* invalid_argument "Invalid value for field '<fieldName>': '<raw>'" *)
| EmptySide (s : Side)
    (* runtime_error "No bids found in file." / "No asks found in file." *)
| CrossedBook (best_bid best_ask : Q)
    (* runtime_error "Crossed book: best bid (..) >= best ask (..)." *)
| InsufficientLiquidity (sweep : Sweep) (targetQty : Q).
    (* runtime_error "Not enough liquidity to buy/sell <qty> units." *)

(** The outcome of a call: a value, a thrown exception, or undefined
    behaviour (indexing an empty vector in [calcStats]). *)
Inductive result (A : Type) :=
| Ok (a : A)
| Throw (e : error)
| Undefined.

Arguments Ok {A} a.
Arguments Throw {A} e.
Arguments Undefined {A}.

Definition bind {A B : Type} (r : result A) (k : A -> result B) : result B :=
  match r with
  | Ok a => k a
  | Throw e => Throw e
  | Undefined => Undefined
  end.

Notation "x <- r ;; k" := (bind r (fun x => k))
  (at level 61, r at next level, right associativity).

(** ** Strings *)

Definition empty (s : string) : bool :=
  match s with EmptyString => true | String _ _ => false end.

(** Membership in the set [" \t\r\n"] of [trim]. *)
Definition is_ws (c : ascii) : bool :=
  match nat_of_ascii c with
  | 32%nat | 9%nat | 13%nat | 10%nat => true
  | _ => false
  end.

(** [s.find_first_not_of(ws)]; [None] is [npos]. *)
Fixpoint find_first_not_of (s : string) : option nat :=
  match s with
  | EmptyString => None
  | String c r =>
      if is_ws c then option_map S (find_first_not_of r) else Some 0%nat
  end.

(** [s.find_last_not_of(ws)]. *)
Fixpoint find_last_not_of (s : string) : option nat :=
  match s with
  | EmptyString => None
  | String c r =>
      match find_last_not_of r with
      | Some i => Some (S i)
      | None => if is_ws c then None else Some 0%nat
      end
  end.

Definition trim (s : string) : string :=
  match find_first_not_of s with
  | None => ""
  | Some start =>
      match find_last_not_of s with
      | Some last => substring start (last - start + 1) s
      | None => ""
      end
  end.

(** [::tolower] in the "C" locale. *)
Definition tolower (c : ascii) : ascii :=
  let n := nat_of_ascii c in
  if ((65 <=? n) && (n <=? 90))%nat then ascii_of_nat (n + 32) else c.

Fixpoint lowercase (s : string) : string :=
  match s with
  | EmptyString => EmptyString
  | String c r => String (tolower c) (lowercase r)
  end.

(** The strings that successive [std::getline(stream, str, delim)] calls
    return on a stream holding [s], until one fails.  A call succeeds when
    it extracts at least one character, the delimiter included; so a final
    piece is returned when it is not empty, and an empty piece before a
    delimiter is returned as the empty string. *)
Fixpoint getlines (delim : ascii) (s : string) : list string :=
  match s with
  | EmptyString => []
  | String c r =>
      if Ascii.eqb c delim then "" :: getlines delim r
      else match getlines delim r with
           | [] => [String c ""]
           | l :: ls => String c l :: ls
           end
  end.

(** ** [std::stod] *)

(** A [double] as [std::stod] can return it. *)
Inductive fp :=
| Finite (q : Q)
| Infinity (negative : bool)
| NaN.

Inductive stod_result :=
| StodOk (v : fp)
| StodInvalidArgument      (* no conversion could be performed *)
| StodOutOfRange.          (* strtod reported ERANGE *)

(** [isspace] in the "C" locale. *)
Definition isspace (c : ascii) : bool :=
  let n := nat_of_ascii c in
  ((n =? 32) || ((9 <=? n) && (n <=? 13)))%nat.

Fixpoint skip_space (s : string) : string :=
  match s with
  | String c r => if isspace c then skip_space r else s
  | EmptyString => s
  end.

Definition dec_digit (c : ascii) : option Z :=
  let n := nat_of_ascii c in
  if ((48 <=? n) && (n <=? 57))%nat then Some (Z.of_nat (n - 48)) else None.

Definition hex_digit (c : ascii) : option Z :=
  let n := nat_of_ascii (tolower c) in
  if ((48 <=? n) && (n <=? 57))%nat then Some (Z.of_nat (n - 48))
  else if ((97 <=? n) && (n <=? 102))%nat then Some (Z.of_nat (n - 87))
  else None.

(** The longest run of digits at the head of [s]: the number read (on top
    of [acc]), how many digits, and what follows. *)
Fixpoint scan_digits (base : Z) (digit : ascii -> option Z) (s : string)
    (acc : Z) (n : nat) : Z * nat * string :=
  match s with
  | String c r =>
      match digit c with
      | Some d => scan_digits base digit r (base * acc + d)%Z (S n)
      | None => (acc, n, s)
      end
  | EmptyString => (acc, n, s)
  end.

(** Digits with an optional radix point, at least one digit in all: the
    digits as one integer, the number of digits after the point, the rest. *)
Definition scan_mantissa (base : Z) (digit : ascii -> option Z) (s : string)
    : option (Z * nat * string) :=
  let '(ip, ni, r1) := scan_digits base digit s 0%Z 0%nat in
  let '(m, nf, r2) :=
    match r1 with
    | String "." r => scan_digits base digit r ip 0%nat
    | _ => (ip, 0%nat, r1)
    end in
  if (ni + nf =? 0)%nat then None else Some (m, nf, r2).

(** An exponent part: the marker, an optional sign, at least one decimal
    digit.  Anything else is no exponent. *)
Definition scan_exponent (marker : ascii) (s : string) : Z :=
  match s with
  | String c r =>
      if Ascii.eqb (tolower c) marker then
        let '(neg, r') :=
          match r with
          | String "-" t => (true, t)
          | String "+" t => (false, t)
          | _ => (false, r)
          end in
        let '(e, n, _) := scan_digits 10 dec_digit r' 0%Z 0%nat in
        if (n =? 0)%nat then 0%Z else if neg then (- e)%Z else e
      else 0%Z
  | EmptyString => 0%Z
  end.

Definition scan_decimal (s : string) : option Q :=
  match scan_mantissa 10 dec_digit s with
  | Some (m, nf, r) =>
      Some (inject_Z m * Qpower 10 (scan_exponent "e" r - Z.of_nat nf))
  | None => None
  end.

Definition scan_hex (s : string) : option Q :=
  match s with
  | String "0" (String x r) =>
      if Ascii.eqb (tolower x) "x" then
        match scan_mantissa 16 hex_digit r with
        | Some (m, nf, r') =>
            Some (inject_Z m
                  * Qpower 2 (scan_exponent "p" r' - 4 * Z.of_nat nf))
        | None => None
        end
      else None
  | _ => None
  end.

Fixpoint starts_with_ci (p s : string) : bool :=
  match p, s with
  | EmptyString, _ => true
  | String a p', String b s' => Ascii.eqb a (tolower b) && starts_with_ci p' s'
  | String _ _, EmptyString => false
  end.

Definition is_integer (q : Q) : bool := (Qden (Qred q) =? 1)%positive.

(** When strtod sets ERANGE on binary64: the value rounds to an infinity,
    or it is below the least normal number and not exactly representable. *)
Definition erange (v : Q) : bool :=
  let a := Qabs v in
  Qle_bool (Qpower 2 1024 - Qpower 2 970) a
  || (Qltb 0 a && Qltb a (Qpower 2 (-1022))
      && negb (is_integer (a * Qpower 2 1074))).

(** [std::stod(raw)]: skips leading white space, reads the longest prefix
    that is a floating-point literal (decimal, hexadecimal, infinity or
    NaN) and ignores what follows it. *)
Definition stod (raw : string) : stod_result :=
  let s := skip_space raw in
  let '(neg, s1) :=
    match s with
    | String "-" t => (true, t)
    | String "+" t => (false, t)
    | _ => (false, s)
    end in
  if starts_with_ci "inf" s1 then StodOk (Infinity neg)
  else if starts_with_ci "nan" s1 then StodOk NaN
  else
    match (match scan_hex s1 with Some v => Some v | None => scan_decimal s1 end) with
    | None => StodInvalidArgument
    | Some v =>
        if erange v then StodOutOfRange
        else StodOk (Finite (Qred (if neg then - v else v)))
    end.

(** ** Row parser *)

Definition parseSide (raw : string) : result Side :=
  let s := lowercase raw in
  if String.eqb s "bid" then Ok BID
  else if String.eqb s "ask" then Ok ASK
  else Throw (InvalidSide raw).

(** Every exception of [std::stod] and the one thrown for a value that is
    not finite or not positive are caught and replaced by the same
    [invalid_argument] naming the field. *)
Definition parseDouble (raw fieldName : string) : result Q :=
  match stod raw with
  | StodOk (Finite value) =>
      if Qle_bool value 0 then Throw (InvalidNumber fieldName raw)
      else Ok value
  | StodOk (Infinity _) | StodOk NaN => Throw (InvalidNumber fieldName raw)
  | StodInvalidArgument | StodOutOfRange =>
      Throw (InvalidNumber fieldName raw)
  end.

(** The [i]-th string read by [std::getline(ss, _, ',')] from the line; a
    call that fails leaves its (empty) string as it was. *)
Definition field (i : nat) (line : string) : string :=
  nth i (getlines "," line) "".

Definition parseRow (line : string) (lineNumber : Z) : result Order :=
  let sideStr := field 0 line in
  let priceStr := field 1 line in
  let sizeStr := field 2 line in
  if empty (trim sideStr) || empty (trim priceStr) || empty (trim sizeStr)
  then Throw (MalformedRow lineNumber)
  else
    s <- parseSide (trim sideStr) ;;
    p <- parseDouble (trim priceStr) "price" ;;
    z <- parseDouble (trim sizeStr) "size" ;;
    Ok (mkOrder s p z).

(** ** [std::sort] *)

(** What the standard asks of a comparator. *)
Definition strict_weak_order {A : Type} (comp : A -> A -> bool) : Prop :=
  (forall a, comp a a = false) /\
  (forall a b c, comp a b = true -> comp b c = true -> comp a c = true) /\
  (forall a b c, comp a b = false -> comp b a = false ->
                 comp b c = false -> comp c b = false ->
                 comp a c = false /\ comp c a = false).

(** [std::sort] is not stable and its order on equivalent elements is left
    to the implementation.  The loader is therefore stated over any sort
    that meets the standard's contract: on a strict weak order the result
    is a rearrangement of the input in which no element is ordered before
    an earlier one. *)
Record StdSort := {
  std_sort : forall A : Type, (A -> A -> bool) -> list A -> list A;
  std_sort_perm : forall A (comp : A -> A -> bool) l,
      strict_weak_order comp -> Permutation l (std_sort A comp l);
  std_sort_sorted : forall A (comp : A -> A -> bool) l,
      strict_weak_order comp ->
      StronglySorted (fun a b => comp b a = false) (std_sort A comp l)
}.

Arguments std_sort _ {A} comp l.

(** One sort that meets the contract: straight insertion. *)
Fixpoint insert {A : Type} (comp : A -> A -> bool) (x : A) (l : list A)
    : list A :=
  match l with
  | [] => [x]
  | y :: r => if comp x y then x :: l else y :: insert comp x r
  end.

Fixpoint insertion_sort {A : Type} (comp : A -> A -> bool) (l : list A)
    : list A :=
  match l with
  | [] => []
  | x :: r => insert comp x (insertion_sort comp r)
  end.

(** ** Book loader *)

(** The two lambdas given to [std::sort]. *)
Definition by_price_desc (a b : Order) : bool := Qltb (price b) (price a).
Definition by_price_asc (a b : Order) : bool := Qltb (price a) (price b).

Definition newline : ascii := ascii_of_nat 10.

(** A file system as [std::ifstream] sees it: the content of each file
    that can be opened for reading. *)
Definition filesystem := string -> option string.

Definition push_order (order : Order) (book : Orderbook) : Orderbook :=
  match side order with
  | BID => mkOrderbook (bids book ++ [order]) (asks book)
  | ASK => mkOrderbook (bids book) (asks book ++ [order])
  end.

(** The [while (std::getline(file, line))] loop; [lineNumber] is its value
    before the increment at the top of the body. *)
Fixpoint read_rows (lines : list string) (lineNumber : Z) (book : Orderbook)
    : result Orderbook :=
  match lines with
  | [] => Ok book
  | line :: rest =>
      let lineNumber := (lineNumber + 1)%Z in
      if empty (trim line) then read_rows rest lineNumber book
      else
        order <- parseRow line lineNumber ;;
        read_rows rest lineNumber (push_order order book)
  end.

(** The first [std::getline] reads the header and [lineNumber] becomes 1;
    the loop reads the lines after it. *)
Definition read_book (content : string) : result Orderbook :=
  read_rows (tl (getlines newline content)) 1 (mkOrderbook [] []).

Definition loadCSV (sort : StdSort) (fs : filesystem) (filename : string)
    : result Orderbook :=
  match fs filename with
  | None => Throw (FileOpenError filename)
  | Some content =>
      book <- read_book content ;;
      match bids book, asks book with
      | [], _ => Throw (EmptySide BID)
      | _ :: _, [] => Throw (EmptySide ASK)
      | _ :: _, _ :: _ =>
          let sorted_bids := std_sort sort by_price_desc (bids book) in
          let sorted_asks := std_sort sort by_price_asc (asks book) in
          match sorted_bids, sorted_asks with
          | b0 :: _, a0 :: _ =>
              if Qle_bool (price a0) (price b0)
              then Throw (CrossedBook (price b0) (price a0))
              else Ok (mkOrderbook sorted_bids sorted_asks)
          | _, _ => Undefined
          end
      end
  end.

(** ** Depth aggregator *)

Definition calcDepth (orders : list Order) (minPrice maxPrice : Q) : Q :=
  fold_left
    (fun total order =>
       if Qle_bool minPrice (price order) && Qle_bool (price order) maxPrice
       then total + size order
       else total)
    orders 0.

(** ** VWAP sweeper *)

(** The loop of [calcVWAPBuy] and of [calcVWAPSell] (the two bodies differ
    in the names of their variables only): the state is
    [(remaining, totalCost)], and [break] leaves it as it is.  This is the
    exact reading, over which [calcStats] is stated; [B64.vwap_loop] below
    is the same loop over binary64. *)
Fixpoint vwap_loop (levels : list Order) (remaining totalCost : Q) : Q * Q :=
  match levels with
  | [] => (remaining, totalCost)
  | level :: rest =>
      if Qle_bool remaining 0 then (remaining, totalCost)
      else
        let filled := std_min remaining (size level) in
        vwap_loop rest (remaining - filled) (totalCost + filled * price level)
  end.

Definition calcVWAP (sweep : Sweep) (levels : list Order) (targetQty : Q)
    : result Q :=
  let '(remaining, total) := vwap_loop levels targetQty 0 in
  if Qltb 0 remaining then Throw (InsufficientLiquidity sweep targetQty)
  else Ok (total / targetQty).

Definition calcVWAPBuy (asks : list Order) (targetQty : Q) : result Q :=
  calcVWAP Buy asks targetQty.

Definition calcVWAPSell (bids : list Order) (targetQty : Q) : result Q :=
  calcVWAP Sell bids targetQty.

(** ** Analytics orchestrator *)

Definition calcStats (book : Orderbook) (depthPct targetQty : Q)
    : result Stats :=
  match bids book, asks book with
  | b0 :: _, a0 :: _ =>
      let bestBid := price b0 in
      let bestAsk := price a0 in
      let midPrice := (bestBid + bestAsk) / 2 in
      let spread := bestAsk - bestBid in
      let spreadPct := (spread / midPrice) * 100 in
      let lower := midPrice * (1 - depthPct / 100) in
      let upper := midPrice * (1 + depthPct / 100) in
      let bidDepth := calcDepth (bids book) lower upper in
      let askDepth := calcDepth (asks book) lower upper in
      vwapBuy <- calcVWAPBuy (asks book) targetQty ;;
      vwapSell <- calcVWAPSell (bids book) targetQty ;;
      Ok (mkStats bestBid bestAsk midPrice spread spreadPct
                  bidDepth askDepth vwapBuy vwapSell)
  | _, _ => Undefined
  end.

(** ** Entry point *)

(** The two constants of [main]. *)
Definition DEPTH_PCT : Q := 0.5.
Definition TARGET_QTY : Q := 40.

(** What a run writes: the report of [printStats] on the standard output
    (its text layout is not modelled, the report is given by the values it
    prints), or the message of the caught exception on the standard
    error. *)
Inductive output :=
| Report (s : Stats) (depthPct targetQty : Q)
| ErrorMessage (e : error).

(** [main] with its argument vector: the file is [argv[1]] when there is
    one, the exit status is 0 after the report and 1 after an exception. *)
Definition main (sort : StdSort) (fs : filesystem) (argv : list string)
    : result (Z * output) :=
  let FILENAME :=
    match argv with
    | _ :: name :: _ => name
    | _ => "orderbook.csv"
    end in
  match (book <- loadCSV sort fs FILENAME ;;
         calcStats book DEPTH_PCT TARGET_QTY) with
  | Ok stats => Ok (0%Z, Report stats DEPTH_PCT TARGET_QTY)
  | Throw e => Ok (1%Z, ErrorMessage e)
  | Undefined => Undefined
  end.

(** ** The VWAP sweeper over binary64 *)

(** Decimal literals below stand for the nearest binary64 value, as they do
    in C++ source and in the result of [std::stod]. *)
Set Warnings "-inexact-float".

Module B64.

Record Order := mkOrder {
  side  : Side;
  price : float;
  size  : float
}.

(** The only exception of the sweeps, with the quantity that its message
    prints. *)
Inductive error :=
| InsufficientLiquidity (sweep : Sweep) (targetQty : float).

Inductive result (A : Type) :=
| Ok (a : A)
| Throw (e : error).

Arguments Ok {A} a.
Arguments Throw {A} e.

(** [std::min(a, b)] is [(b < a) ? b : a]; a comparison with a NaN is
    false. *)
Definition std_min (a b : float) : float := if (b <? a)%float then b else a.

(** The loop of [calcVWAPBuy] and of [calcVWAPSell], statement by
    statement: the test of [break], [filled], [totalCost += filled * price],
    [remaining -= filled]. *)
Fixpoint vwap_loop (levels : list Order) (remaining totalCost : float)
    : float * float :=
  match levels with
  | [] => (remaining, totalCost)
  | level :: rest =>
      if (remaining <=? 0)%float then (remaining, totalCost)
      else
        let filled := std_min remaining (size level) in
        vwap_loop rest (remaining - filled)%float
                  (totalCost + filled * price level)%float
  end.

Definition calcVWAP (sweep : Sweep) (levels : list Order) (targetQty : float)
    : result float :=
  let '(remaining, total) := vwap_loop levels targetQty 0%float in
  if (0 <? remaining)%float then Throw (InsufficientLiquidity sweep targetQty)
  else Ok (total / targetQty)%float.

Definition calcVWAPBuy (asks : list Order) (targetQty : float)
    : result float :=
  calcVWAP Buy asks targetQty.

Definition calcVWAPSell (bids : list Order) (targetQty : float)
    : result float :=
  calcVWAP Sell bids targetQty.

(** *** The number that a binary64 value stands for *)

(** The magnitude of the finite value with mantissa [m] and exponent [e]. *)
Definition mag (m : positive) (e : Z) : Q := inject_Z (Zpos m) * 2 ^ e.

Definition SF2Q (x : spec_float) : Q :=
  match x with
  | S754_finite s m e => if s then - mag m e else mag m e
  | _ => 0
  end.

Definition SFfinite (x : spec_float) : bool :=
  match x with
  | S754_zero _ | S754_finite _ _ _ => true
  | _ => false
  end.

(** The rational that a finite [x] is, and whether [x] is finite (neither
    an infinity nor a NaN). *)
Definition value (x : float) : Q := SF2Q (Prim2SF x).
Definition is_finite (x : float) : bool := SFfinite (Prim2SF x).

(** *** Vocabulary of the statements on the sweep *)

(** The invariant of an [Order] of the data model: a finite positive price
    and a finite positive size. *)
Definition valid_order (o : Order) : Prop :=
  is_finite (price o) = true /\ 0 < value (price o) /\
  is_finite (size o) = true /\ 0 < value (size o).

(** The total resting size: the sum, as a number, of the sizes. *)
Definition total_size (levels : list Order) : Q :=
  fold_right (fun o acc => value (size o) + acc) 0 levels.

(** The lesser of two quantities. *)
Definition fmin (a b : float) : float := if (a <=? b)%float then a else b.

(** The fills of a sweep, in the words of the specification: at each level
    in turn the lesser of what remains and the level's size, until nothing
    remains. *)
Fixpoint sweep_fills (levels : list Order) (remaining : float) : list float :=
  match levels with
  | [] => []
  | level :: rest =>
      if (remaining =? 0)%float then []
      else
        let filled := fmin remaining (size level) in
        filled :: sweep_fills rest (remaining - filled)%float
  end.

(** The sum of [filled_i * price_i] from the first filled level on, each
    product and each partial sum rounded to binary64. *)
Definition add_fill (acc : float) (fl : float * Order) : float :=
  (acc + fst fl * price (snd fl))%float.

Definition fills_value (fills : list float) (levels : list Order) : float :=
  fold_left add_fill (combine fills levels) 0%float.

(** The sum, as a number, of a list of quantities. *)
Definition sum_values (l : list float) : Q :=
  fold_right (fun x acc => value x + acc) 0 l.

(** The binary64 difference [a - b] is the difference of the two numbers:
    the subtraction is not rounded. *)
Definition exact_sub (a b : float) : bool :=
  is_finite (a - b) && Qeq_bool (value (a - b)) (value a - value b).

(** No subtraction from the running remainder is rounded along the fills
    of a sweep for [remaining]. *)
Fixpoint exact_walk (levels : list Order) (remaining : float) : bool :=
  match levels with
  | [] => true
  | level :: rest =>
      (remaining =? 0)%float
      || (let filled := fmin remaining (size level) in
          exact_sub remaining filled
          && exact_walk rest (remaining - filled)%float)
  end.

(** *** Sample levels *)

Definition sample_asks : list Order := [mkOrder ASK 101 8; mkOrder ASK 102 10].

(** Asks of sizes 0.1, 0.1 and 0.2, which add up to 0.4 as numbers. *)
Definition tenths : list Order :=
  [mkOrder ASK 1 0.1; mkOrder ASK 1 0.1; mkOrder ASK 1 0.2].

Definition forty_short : list Order :=
  [mkOrder ASK 1 18.52; mkOrder ASK 1 5.08; mkOrder ASK 1 3.22;
   mkOrder ASK 1 13.18].

End B64.

(** ** Specification vocabulary *)

(** The invariant of an [Order] of the data model, which [parseRow]
    establishes: price and size are positive. *)
Definition valid_order (o : Order) : Prop := 0 < price o /\ 0 < size o.

Definition total_size (levels : list Order) : Q :=
  fold_right (fun o acc => size o + acc) 0 levels.

(** The price of [o] lies in the closed interval [[minPrice, maxPrice]]. *)
Definition in_band (minPrice maxPrice : Q) (o : Order) : Prop :=
  minPrice <= price o /\ price o <= maxPrice.

Definition in_band_dec (minPrice maxPrice : Q) (o : Order)
    : {in_band minPrice maxPrice o} + {~ in_band minPrice maxPrice o}.
Proof.
  unfold in_band.
  destruct (Qlt_le_dec (price o) minPrice) as [Hlo|Hlo].
  - right. intros [H _]. exact (Qlt_not_le _ _ Hlo H).
  - destruct (Qlt_le_dec maxPrice (price o)) as [Hhi|Hhi].
    + right. intros [_ H]. exact (Qlt_not_le _ _ Hhi H).
    + left. now split.
Defined.

Definition orders_in_band (minPrice maxPrice : Q) (orders : list Order)
    : list Order :=
  filter (fun o => if in_band_dec minPrice maxPrice o then true else false)
         orders.

(** A field that [parseDouble] rejects: [std::stod] does not return a
    finite number for it, or returns one that is not positive. *)
Definition rejected_number (raw : string) : Prop :=
  match stod raw with
  | StodOk (Finite value) => value <= 0
  | _ => True
  end.

(** The number that a text denotes when the text is, as a whole, a decimal
    numeral: an optional sign, digits with an optional point and at least
    one digit, and an optional exponent. *)
Definition numeral (s : string) : option Q :=
  let '(neg, s1) :=
    match s with
    | String "-" t => (true, t)
    | String "+" t => (false, t)
    | _ => (false, s)
    end in
  match scan_mantissa 10 dec_digit s1 with
  | Some (m, nf, r) =>
      let signed (e : Z) :=
        let v := inject_Z m * Qpower 10 (e - Z.of_nat nf) in
        if neg then - v else v in
      match r with
      | EmptyString => Some (signed 0%Z)
      | String c r1 =>
          if Ascii.eqb (tolower c) "e" then
            let '(eneg, r2) :=
              match r1 with
              | String "-" t => (true, t)
              | String "+" t => (false, t)
              | _ => (false, r1)
              end in
            match scan_digits 10 dec_digit r2 0%Z 0%nat with
            | (e, S _, EmptyString) =>
                Some (signed (if eneg then (- e)%Z else e))
            | _ => None
            end
          else None
      end
  | None => None
  end.

(** A field that is not the text of a number, or is the text of a number
    that is not positive. *)
Definition not_positive_number (raw : string) : Prop :=
  match numeral raw with
  | Some v => v <= 0
  | None => True
  end.

Fixpoint contains (c : ascii) (s : string) : bool :=
  match s with
  | EmptyString => false
  | String a r => Ascii.eqb a c || contains c r
  end.

Definition descending (l : list Order) : Prop :=
  Sorted (fun a b => price b <= price a) l.
Definition ascending (l : list Order) : Prop :=
  Sorted (fun a b => price a <= price b) l.
Definition strictly_descending (l : list Order) : Prop :=
  Sorted (fun a b => price b < price a) l.
Definition strictly_ascending (l : list Order) : Prop :=
  Sorted (fun a b => price a < price b) l.

(** A text file from its lines. *)
Fixpoint unlines (ls : list string) : string :=
  match ls with
  | [] => ""
  | l :: r => (l ++ String newline (unlines r))%string
  end.

(** The lines after the header with their 1-based numbers, blank ones
    left out: the rows that the loader hands to the row parser. *)
Fixpoint number_from (n : Z) (lines : list string) : list (Z * string) :=
  match lines with
  | [] => []
  | l :: r => ((n + 1)%Z, l) :: number_from (n + 1)%Z r
  end.

Definition data_rows (content : string) : list (Z * string) :=
  filter (fun nl => negb (empty (trim (snd nl))))
         (number_from 1 (tl (getlines newline content))).

Definition is_bid (o : Order) : bool :=
  match side o with BID => true | ASK => false end.
Definition is_ask (o : Order) : bool := negb (is_bid o).

(** ** Vocabulary for white space *)

(** Every character of [s] is one of those that [trim] removes. *)
Fixpoint all_ws (s : string) : bool :=
  match s with
  | EmptyString => true
  | String c r => is_ws c && all_ws r
  end.

Fixpoint last_char (s : string) : option ascii :=
  match s with
  | EmptyString => None
  | String c EmptyString => Some c
  | String _ r => last_char r
  end.

(** [s] without its leading white space, and without its trailing one. *)
Fixpoint ltrim (s : string) : string :=
  match s with
  | EmptyString => EmptyString
  | String c r => if is_ws c then ltrim r else s
  end.

Fixpoint rtrim (s : string) : string :=
  match s with
  | EmptyString => EmptyString
  | String c r =>
      match rtrim r with
      | EmptyString => if is_ws c then EmptyString else String c EmptyString
      | t => String c t
      end
  end.

(** The spellings of the two side tokens. *)
Definition bid_spellings : list string :=
  ["bid"; "biD"; "bId"; "bID"; "Bid"; "BiD"; "BId"; "BID"].
Definition ask_spellings : list string :=
  ["ask"; "asK"; "aSk"; "aSK"; "Ask"; "AsK"; "ASk"; "ASK"].

Fixpoint count_char (c : ascii) (s : string) : nat :=
  match s with
  | EmptyString => 0
  | String a r => (if Ascii.eqb a c then 1 else 0) + count_char c r
  end.

(** A second sort that meets the contract of [std::sort]; it leaves
    equal elements in the opposite order of [insertion_sort]. *)
Definition insertion_sort_rev {A : Type} (comp : A -> A -> bool)
    (l : list A) : list A :=
  insertion_sort comp (rev l).

(** ** Sample data *)

(** A file with two bids at one price. *)
Definition tied_file : string :=
  unlines ["side,price,size"; "bid,100,1"; "bid,100,2"; "ask,101,1"].

Definition tied_fs : filesystem := fun _ => Some tied_file.

(** A file whose best bid is above its best ask. *)
Definition crossed_file : string :=
  unlines ["side,price,size"; "bid,105.0,1"; "ask,100.0,1"; "bid,99.0,2"].

Definition crossed_fs : filesystem := fun _ => Some crossed_file.

Definition sample_file : string :=
  unlines ["side,price,size"; "bid,99.0,5"; "ask,102.0,10"; "";
           "ASK, 101.0 ,8"; "bid,100.0,10"].

Definition sample_fs : filesystem :=
  fun name => if String.eqb name "orderbook.csv" then Some sample_file
              else None.

Definition sample_book : Orderbook :=
  mkOrderbook [mkOrder BID 100 10; mkOrder BID 99 5]
              [mkOrder ASK 101 8; mkOrder ASK 102 10].

(** The sample file without its blank line. *)
Definition compact_fs : filesystem :=
  fun _ => Some (unlines ["side,price,size"; "bid,99.0,5"; "ask,102.0,10";
                          "ASK, 101.0 ,8"; "bid,100.0,10"]).

(** A file with a blank line, then a row without a price, then a row
    without commas. *)
Definition gapped_file : string :=
  unlines ["side,price,size"; "bid,99.0,5"; ""; "ask,,10"; "oops"].

(** The two books that [tied_file] loads to, according to the order in
    which the sort leaves its two bids at price 100. *)
Definition tied_book_21 : Orderbook :=
  mkOrderbook [mkOrder BID 100 2; mkOrder BID 100 1] [mkOrder ASK 101 1].
Definition tied_book_12 : Orderbook :=
  mkOrderbook [mkOrder BID 100 1; mkOrder BID 100 2] [mkOrder ASK 101 1].

(** * Proofs *)

(** ** Comparisons *)

Lemma Qltb_lt (x y : Q) : Qltb x y = true <-> x < y.
Proof.
  unfold Qltb. rewrite negb_true_iff. split.
  - intros H. apply Qnot_le_lt. intros Hle.
    apply Qle_bool_iff in Hle. congruence.
  - intros H. destruct (Qle_bool y x) eqn:E; [|reflexivity].
    apply Qle_bool_iff in E. exfalso. exact (Qlt_not_le _ _ H E).
Qed.

Lemma Qltb_ge (x y : Q) : Qltb x y = false <-> y <= x.
Proof.
  unfold Qltb. rewrite negb_false_iff. apply Qle_bool_iff.
Qed.

Lemma Qle_bool_gt (x y : Q) : Qle_bool x y = false <-> y < x.
Proof.
  rewrite <- Qltb_lt. unfold Qltb. rewrite negb_true_iff. reflexivity.
Qed.


Ltac qprop :=
  repeat match goal with
  | H : Qltb _ _ = true |- _ => apply Qltb_lt in H
  | H : Qltb _ _ = false |- _ => apply Qltb_ge in H
  | H : Qle_bool _ _ = true |- _ => apply Qle_bool_iff in H
  | H : Qle_bool _ _ = false |- _ => apply Qle_bool_gt in H
  | |- Qltb _ _ = true => apply Qltb_lt
  | |- Qltb _ _ = false => apply Qltb_ge
  | |- Qle_bool _ _ = true => apply Qle_bool_iff
  | |- Qle_bool _ _ = false => apply Qle_bool_gt
  end.

(** ** The sort contract *)

Lemma by_price_desc_swo : strict_weak_order by_price_desc.
Proof.
  unfold strict_weak_order, by_price_desc. repeat split; intros; qprop; lra.
Qed.

Lemma by_price_asc_swo : strict_weak_order by_price_asc.
Proof.
  unfold strict_weak_order, by_price_asc. repeat split; intros; qprop; lra.
Qed.

Section InsertionSort.
Context {A : Type} (comp : A -> A -> bool).
Hypothesis comp_swo : strict_weak_order comp.

Let after (a b : A) : Prop := comp b a = false.

Lemma comp_asym a b : comp a b = true -> comp b a = false.
Proof.
  destruct comp_swo as (irr & tr & _). intros H.
  destruct (comp b a) eqn:E; [|reflexivity].
  rewrite <- (irr a). symmetry. now apply tr with b.
Qed.

Lemma insert_perm x l : Permutation (x :: l) (insert comp x l).
Proof.
  induction l as [|y r IH]; simpl; [reflexivity|].
  destruct (comp x y); [reflexivity|].
  now rewrite perm_swap, IH.
Qed.

Lemma insert_sorted x l :
  StronglySorted after l -> StronglySorted after (insert comp x l).
Proof.
  destruct comp_swo as (irr & tr & _).
  induction 1 as [|y r Hs IH Hy]; simpl.
  - repeat constructor.
  - destruct (comp x y) eqn:E.
    + constructor; [now constructor|].
      constructor; [now apply comp_asym|].
      rewrite Forall_forall in *. intros z Hz. unfold after in *.
      destruct (comp z x) eqn:Ezx; [|reflexivity].
      rewrite <- (Hy z Hz). symmetry. now apply tr with x.
    + constructor; [exact IH|].
      apply (Permutation_Forall (insert_perm x r)).
      now constructor.
Qed.

Lemma insertion_sort_perm l : Permutation l (insertion_sort comp l).
Proof.
  induction l as [|x r IH]; simpl; [reflexivity|].
  rewrite <- insert_perm. now constructor.
Qed.

Lemma insertion_sort_sorted l : StronglySorted after (insertion_sort comp l).
Proof.
  induction l as [|x r IH]; simpl; [constructor|].
  now apply insert_sorted.
Qed.
End InsertionSort.

Definition insertion_StdSort : StdSort :=
  {| std_sort := @insertion_sort;
     std_sort_perm := fun A comp l H => insertion_sort_perm comp l;
     std_sort_sorted := fun A comp l H => insertion_sort_sorted comp H l |}.

Lemma insertion_sort_rev_perm {A : Type} (comp : A -> A -> bool) (l : list A) :
  Permutation l (insertion_sort_rev comp l).
Proof.
  unfold insertion_sort_rev. rewrite <- insertion_sort_perm.
  apply Permutation_rev.
Qed.

Definition insertion_rev_StdSort : StdSort :=
  {| std_sort := @insertion_sort_rev;
     std_sort_perm := fun A comp l H => insertion_sort_rev_perm comp l;
     std_sort_sorted :=
       fun A comp l H => insertion_sort_sorted comp H (rev l) |}.

(** ** Numbers and sides of a row *)

Lemma empty_false (s : string) : empty s = false <-> s <> "".
Proof.
  destruct s; simpl; split; intros H; try discriminate; try reflexivity.
  now contradiction H.
Qed.

Lemma empty_true (s : string) : empty s = true <-> s = "".
Proof.
  destruct s; simpl; split; intros H; try discriminate; reflexivity.
Qed.

Lemma parseDouble_rejected (raw fieldName : string) :
  rejected_number raw ->
  parseDouble raw fieldName = Throw (InvalidNumber fieldName raw).
Proof.
  unfold rejected_number, parseDouble.
  destruct (stod raw) as [[value| |]| |]; try reflexivity.
  intros H. apply Qle_bool_iff in H. now rewrite H.
Qed.

Lemma parseDouble_accepted (raw fieldName : string) :
  ~ rejected_number raw ->
  exists value, stod raw = StodOk (Finite value) /\ 0 < value /\
                parseDouble raw fieldName = Ok value.
Proof.
  unfold rejected_number, parseDouble.
  destruct (stod raw) as [[value| |]| |]; try (intros H; now contradiction H).
  intros H. exists value. destruct (Qle_bool value 0) eqn:E; qprop.
  - contradiction.
  - now repeat split.
Qed.

Lemma parseDouble_Ok (raw fieldName : string) (value : Q) :
  parseDouble raw fieldName = Ok value -> raw <> "" /\ 0 < value.
Proof.
  unfold parseDouble. intros H. split.
  - intros ->. vm_compute in H. discriminate.
  - destruct (stod raw) as [[v| |]| |]; try discriminate.
    destruct (Qle_bool v 0) eqn:E; [discriminate|].
    injection H as <-. now qprop.
Qed.

Lemma parseSide_Ok (raw : string) (s : Side) :
  parseSide raw = Ok s -> raw <> "".
Proof. intros H ->. vm_compute in H. discriminate. Qed.

(** ** Book loader *)

Lemma bind_Ok {A B : Type} (r : result A) (k : A -> result B) (b : B) :
  bind r k = Ok b -> exists a, r = Ok a /\ k a = Ok b.
Proof.
  destruct r as [a| |]; simpl; intros H; try discriminate.
  now exists a.
Qed.

Lemma StronglySorted_weaken {A : Type} (R R' : A -> A -> Prop) (l : list A) :
  (forall a b, R a b -> R' a b) -> StronglySorted R l -> Sorted R' l.
Proof.
  intros HR Hs. apply StronglySorted_Sorted.
  induction Hs as [|x r Hs IH Hx]; constructor; [exact IH|].
  revert Hx. apply Forall_impl. exact (HR x).
Qed.

(** What a successful load went through. *)
Lemma loadCSV_Ok sort fs filename book :
  loadCSV sort fs filename = Ok book ->
  exists content raw b0 bs a0 ass,
    fs filename = Some content /\ read_book content = Ok raw /\
    bids book = std_sort sort by_price_desc (bids raw) /\
    asks book = std_sort sort by_price_asc (asks raw) /\
    bids book = b0 :: bs /\ asks book = a0 :: ass /\
    price b0 < price a0.
Proof.
  unfold loadCSV. destruct (fs filename) as [content|]; [|discriminate].
  intros H. apply bind_Ok in H. destruct H as (raw & Hraw & H).
  destruct (bids raw) as [|rb rbs] eqn:Eb; [discriminate|].
  destruct (asks raw) as [|ra ras] eqn:Ea; [discriminate|].
  destruct (std_sort sort by_price_desc (rb :: rbs)) as [|b0 bs] eqn:Esb;
    [discriminate|].
  destruct (std_sort sort by_price_asc (ra :: ras)) as [|a0 ass] eqn:Esa;
    [discriminate|].
  destruct (Qle_bool (price a0) (price b0)) eqn:Ecross; [discriminate|].
  injection H as <-. simpl.
  exists content, raw, b0, bs, a0, ass. rewrite Eb, Ea, Esb, Esa.
  repeat split; try reflexivity; try assumption. now qprop.
Qed.

Lemma loadCSV_crossed sort fs filename content raw b0 a0 :
  fs filename = Some content -> read_book content = Ok raw ->
  hd_error (std_sort sort by_price_desc (bids raw)) = Some b0 ->
  hd_error (std_sort sort by_price_asc (asks raw)) = Some a0 ->
  price a0 <= price b0 ->
  loadCSV sort fs filename = Throw (CrossedBook (price b0) (price a0)).
Proof.
  intros Hfs Hraw Hb Ha Hcross. unfold loadCSV. rewrite Hfs, Hraw. simpl.
  destruct (bids raw) as [|rb rbs] eqn:Eb.
  { pose proof (std_sort_perm sort _ by_price_desc [] by_price_desc_swo) as P.
    apply Permutation_nil in P. rewrite P in Hb. discriminate. }
  destruct (asks raw) as [|ra ras] eqn:Ea.
  { pose proof (std_sort_perm sort _ by_price_asc [] by_price_asc_swo) as P.
    apply Permutation_nil in P. rewrite P in Ha. discriminate. }
  destruct (std_sort sort by_price_desc (rb :: rbs)) as [|b bs];
    [discriminate|].
  destruct (std_sort sort by_price_asc (ra :: ras)) as [|a ass];
    [discriminate|].
  simpl in Hb, Ha. injection Hb as ->. injection Ha as ->.
  apply Qle_bool_iff in Hcross. now rewrite Hcross.
Qed.

(** Whatever [std::sort] does with the tie, the two bids stay at the same
    price. *)
Lemma tied_file_loads sort :
  exists b1 b2 a,
    loadCSV sort tied_fs "orderbook.csv"
      = Ok (mkOrderbook [b1; b2] [a]) /\
    price b1 == price b2.
Proof.
  unfold loadCSV, tied_fs.
  replace (read_book tied_file)
    with (Ok (mkOrderbook [mkOrder BID 100 1; mkOrder BID 100 2]
                          [mkOrder ASK 101 1]))
    by (vm_compute; reflexivity).
  cbn [bind bids asks].
  pose proof (std_sort_perm sort _ by_price_desc
                [mkOrder BID 100 1; mkOrder BID 100 2] by_price_desc_swo) as Pb.
  pose proof (std_sort_perm sort _ by_price_asc
                [mkOrder ASK 101 1] by_price_asc_swo) as Pa.
  apply Permutation_length_1_inv in Pa. rewrite Pa.
  apply Permutation_length_2_inv in Pb. destruct Pb as [-> | ->].
  - do 3 eexists. split; [vm_compute; reflexivity|]. reflexivity.
  - do 3 eexists. split; [vm_compute; reflexivity|]. reflexivity.
Qed.

(** C1, as stated, fails: a file with two bids at the same price loads, and
    its bids are not strictly descending. *)
Lemma loadCSV_strict_order_counterexample :
  ~ (forall sort fs filename book,
       loadCSV sort fs filename = Ok book ->
       strictly_descending (bids book) /\ strictly_ascending (asks book) /\
       exists b0 a0, hd_error (bids book) = Some b0 /\
                     hd_error (asks book) = Some a0 /\ price b0 < price a0).
Proof.
  intros H.
  destruct (tied_file_loads insertion_StdSort) as (b1 & b2 & a & Hload & Heq).
  apply H in Hload. destruct Hload as (Hdesc & _).
  unfold strictly_descending in Hdesc. cbn [bids] in Hdesc.
  inversion Hdesc as [|? ? _ Hhd]; subst.
  inversion Hhd as [|? ? Hlt]; subst. lra.
Qed.

(** C1 (amended): a loaded book has its bids in descending and its asks in
    ascending order of price, equal prices allowed; its first bid is priced
    strictly below its first ask; and when, after sorting, the first bid is
    priced at or above the first ask, loading fails with CrossedBook. *)
Theorem loadCSV_sorted_uncrossed (sort : StdSort) (fs : filesystem)
    (filename : string) :
  (forall book,
     loadCSV sort fs filename = Ok book ->
     descending (bids book) /\ ascending (asks book) /\
     exists b0 a0, hd_error (bids book) = Some b0 /\
                   hd_error (asks book) = Some a0 /\ price b0 < price a0) /\
  (forall content raw b0 a0,
     fs filename = Some content -> read_book content = Ok raw ->
     hd_error (std_sort sort by_price_desc (bids raw)) = Some b0 ->
     hd_error (std_sort sort by_price_asc (asks raw)) = Some a0 ->
     price a0 <= price b0 ->
     loadCSV sort fs filename = Throw (CrossedBook (price b0) (price a0))).
Proof.
  split.
  - intros book H.
    destruct (loadCSV_Ok _ _ _ _ H)
      as (content & raw & b0 & bs & a0 & ass & _ & _ & Hb & Ha & Eb & Ea & Hlt).
    split; [|split].
    + unfold descending. rewrite Hb.
      apply StronglySorted_weaken with (R := fun a b => by_price_desc b a = false).
      * unfold by_price_desc. intros a b Hab. now qprop.
      * apply std_sort_sorted, by_price_desc_swo.
    + unfold ascending. rewrite Ha.
      apply StronglySorted_weaken with (R := fun a b => by_price_asc b a = false).
      * unfold by_price_asc. intros a b Hab. now qprop.
      * apply std_sort_sorted, by_price_asc_swo.
    + exists b0, a0. rewrite Eb, Ea. repeat split. exact Hlt.
  - intros content raw b0 a0. apply loadCSV_crossed.
Qed.

(** The loop appends every parsed order to the sequence of its side, in
    the order of the rows. *)
Lemma read_rows_Ok lines : forall n book book',
  read_rows lines n book = Ok book' ->
  exists orders,
    map (fun nl => parseRow (snd nl) (fst nl))
        (filter (fun nl => negb (empty (trim (snd nl)))) (number_from n lines))
      = map Ok orders /\
    bids book' = bids book ++ filter is_bid orders /\
    asks book' = asks book ++ filter is_ask orders.
Proof.
  induction lines as [|line rest IH]; intros n book book' H; simpl in *.
  - injection H as <-. exists []. simpl. now rewrite !app_nil_r.
  - destruct (empty (trim line)) eqn:Eblank; simpl.
    + now apply IH.
    + apply bind_Ok in H. destruct H as (order & Hrow & H).
      apply IH in H. destruct H as (orders & Hmap & Hb & Ha).
      exists (order :: orders). simpl. rewrite Hrow, Hmap.
      split; [reflexivity|]. rewrite Hb, Ha.
      unfold push_order, is_ask, is_bid.
      destruct (side order); simpl; now rewrite <- ?app_assoc.
Qed.

Lemma parseRow_valid (line : string) (lineNumber : Z) (o : Order) :
  parseRow line lineNumber = Ok o -> valid_order o.
Proof.
  unfold parseRow.
  destruct (empty (trim (field 0 line)) || empty (trim (field 1 line))
            || empty (trim (field 2 line))); [discriminate|].
  intros H.
  apply bind_Ok in H. destruct H as (s & _ & H).
  apply bind_Ok in H. destruct H as (p & Hp & H).
  apply bind_Ok in H. destruct H as (z & Hz & H).
  injection H as <-. split; simpl.
  - exact (proj2 (parseDouble_Ok _ _ _ Hp)).
  - exact (proj2 (parseDouble_Ok _ _ _ Hz)).
Qed.

Lemma parsed_rows_valid (rows : list (Z * string)) : forall orders,
  map (fun nl => parseRow (snd nl) (fst nl)) rows = map Ok orders ->
  Forall valid_order orders.
Proof.
  induction rows as [|[n line] rows IH]; intros [|o orders] H;
    try discriminate; constructor.
  - injection H as Ho _. exact (parseRow_valid _ _ _ Ho).
  - injection H as _ Hr. exact (IH _ Hr).
Qed.

Lemma Forall_filter {A : Type} (P : A -> Prop) (f : A -> bool) (l : list A) :
  Forall P l -> Forall P (filter f l).
Proof.
  rewrite !Forall_forall. intros H x Hx. apply filter_In in Hx. now apply H.
Qed.

(** Every order of a loaded book has a positive price and a positive size. *)
Lemma loadCSV_valid sort fs filename book :
  loadCSV sort fs filename = Ok book ->
  Forall valid_order (bids book) /\ Forall valid_order (asks book).
Proof.
  intros H.
  destruct (loadCSV_Ok _ _ _ _ H)
    as (content & raw & _ & _ & _ & _ & _ & Hraw & Hb & Ha & _).
  apply read_rows_Ok in Hraw. destruct Hraw as (orders & Hmap & Hrb & Hra).
  apply parsed_rows_valid in Hmap. simpl in Hrb, Hra.
  rewrite Hb, Ha, Hrb, Hra. split.
  - apply (Permutation_Forall (std_sort_perm sort _ _ _ by_price_desc_swo)).
    now apply Forall_filter.
  - apply (Permutation_Forall (std_sort_perm sort _ _ _ by_price_asc_swo)).
    now apply Forall_filter.
Qed.

Lemma filter_sides_perm (orders : list Order) :
  Permutation (filter is_bid orders ++ filter is_ask orders) orders.
Proof.
  induction orders as [|o r IH]; simpl; [constructor|].
  unfold is_ask at 1. destruct (is_bid o); simpl.
  - now constructor.
  - rewrite <- Permutation_middle. now constructor.
Qed.

(** C9: the orders of a loaded book are, as a multiset, the orders that the
    row parser returned for the non-blank lines after the header: the bids
    are the parsed orders of side BID and the asks those of side ASK, each
    rearranged, so no order is dropped, repeated or changed. *)
Theorem loadCSV_keeps_orders (sort : StdSort) (fs : filesystem)
    (filename : string) (book : Orderbook) :
  loadCSV sort fs filename = Ok book ->
  exists content orders,
    fs filename = Some content /\
    map (fun nl => parseRow (snd nl) (fst nl)) (data_rows content)
      = map Ok orders /\
    Permutation (bids book ++ asks book) orders /\
    Permutation (bids book) (filter is_bid orders) /\
    Permutation (asks book) (filter is_ask orders).
Proof.
  intros H.
  destruct (loadCSV_Ok _ _ _ _ H)
    as (content & raw & _ & _ & _ & _ & Hfs & Hraw & Hb & Ha & _).
  apply read_rows_Ok in Hraw. destruct Hraw as (orders & Hmap & Hrb & Hra).
  simpl in Hrb, Hra.
  assert (Pb : Permutation (bids book) (filter is_bid orders)).
  { rewrite Hb, Hrb. symmetry. apply std_sort_perm, by_price_desc_swo. }
  assert (Pa : Permutation (asks book) (filter is_ask orders)).
  { rewrite Ha, Hra. symmetry. apply std_sort_perm, by_price_asc_swo. }
  exists content, orders. repeat split; try assumption.
  rewrite Pb, Pa. apply filter_sides_perm.
Qed.

Lemma sample_loads :
  loadCSV insertion_StdSort sample_fs "orderbook.csv" = Ok sample_book.
Proof. vm_compute. reflexivity. Qed.

Lemma loadCSV_sorted_uncrossed_witness :
  (descending (bids sample_book) /\ ascending (asks sample_book) /\
   exists b0 a0, hd_error (bids sample_book) = Some b0 /\
                 hd_error (asks sample_book) = Some a0 /\
                 price b0 < price a0) /\
  loadCSV insertion_StdSort crossed_fs "orderbook.csv"
    = Throw (CrossedBook 105 100).
Proof.
  split.
  - exact (proj1 (loadCSV_sorted_uncrossed insertion_StdSort sample_fs
                    "orderbook.csv") sample_book sample_loads).
  - apply (proj2 (loadCSV_sorted_uncrossed insertion_StdSort crossed_fs
                    "orderbook.csv")
             crossed_file
             (mkOrderbook [mkOrder BID 105 1; mkOrder BID 99 2]
                          [mkOrder ASK 100 1])
             (mkOrder BID 105 1) (mkOrder ASK 100 1)).
    + reflexivity.
    + vm_compute. reflexivity.
    + reflexivity.
    + reflexivity.
    + vm_compute. discriminate.
Defined.

Lemma loadCSV_keeps_orders_witness :
  exists content orders,
    sample_fs "orderbook.csv" = Some content /\
    map (fun nl => parseRow (snd nl) (fst nl)) (data_rows content)
      = map Ok orders /\
    Permutation (bids sample_book ++ asks sample_book) orders /\
    Permutation (bids sample_book) (filter is_bid orders) /\
    Permutation (asks sample_book) (filter is_ask orders).
Proof.
  exact (loadCSV_keeps_orders insertion_StdSort sample_fs "orderbook.csv"
           sample_book sample_loads).
Defined.

(** ** Depth aggregator *)

Lemma band_test_iff (minPrice maxPrice : Q) (o : Order) :
  Qle_bool minPrice (price o) && Qle_bool (price o) maxPrice = true
  <-> in_band minPrice maxPrice o.
Proof.
  unfold in_band. rewrite andb_true_iff, !Qle_bool_iff. reflexivity.
Qed.

Lemma depth_loop_sum (minPrice maxPrice : Q) (orders : list Order) :
  forall total,
    fold_left
      (fun total order =>
         if Qle_bool minPrice (price order) && Qle_bool (price order) maxPrice
         then total + size order
         else total)
      orders total
    == total + total_size (orders_in_band minPrice maxPrice orders).
Proof.
  induction orders as [|o r IH]; intros total; simpl.
  - lra.
  - rewrite IH.
    destruct (in_band_dec minPrice maxPrice o) as [Hin|Hout];
      destruct (Qle_bool minPrice (price o) && Qle_bool (price o) maxPrice)
        eqn:E; simpl.
    + lra.
    + apply band_test_iff in Hin. congruence.
    + apply band_test_iff in E. contradiction.
    + lra.
Qed.

(** C5: the depth is the sum of the sizes of exactly the orders priced in
    the closed interval from minPrice to maxPrice; [calcDepth] is a total
    function, and without an order in the band (so also on the empty list)
    it returns 0. *)
Theorem calcDepth_sum_in_band (orders : list Order) (minPrice maxPrice : Q) :
  calcDepth orders minPrice maxPrice
    == total_size (orders_in_band minPrice maxPrice orders) /\
  (forall o, In o (orders_in_band minPrice maxPrice orders)
             <-> In o orders /\ in_band minPrice maxPrice o) /\
  ((forall o, In o orders -> ~ in_band minPrice maxPrice o) ->
   calcDepth orders minPrice maxPrice = 0).
Proof.
  split; [|split].
  - unfold calcDepth. rewrite depth_loop_sum. lra.
  - intros o. unfold orders_in_band. rewrite filter_In.
    destruct (in_band_dec minPrice maxPrice o); intuition discriminate.
  - unfold calcDepth. generalize (0 : Q) as total.
    induction orders as [|o r IH]; intros total Hnone; simpl; [reflexivity|].
    destruct (Qle_bool minPrice (price o) && Qle_bool (price o) maxPrice)
      eqn:E.
    + apply band_test_iff in E. exfalso. apply (Hnone o); [now left|exact E].
    + apply IH. intros o' Ho'. apply Hnone. now right.
Qed.

Lemma calcDepth_sum_in_band_witness :
  calcDepth (bids sample_book) 200 300 = 0.
Proof.
  apply (calcDepth_sum_in_band (bids sample_book) 200 300).
  intros o Ho [Hlo _]. simpl in Ho.
  destruct Ho as [<-|[<-|[]]]; vm_compute in Hlo; apply Hlo; reflexivity.
Defined.

Lemma depth_loop_mono (orders : list Order)
    (minPrice maxPrice minPrice' maxPrice' : Q) :
  Forall valid_order orders ->
  minPrice' <= minPrice -> maxPrice <= maxPrice' ->
  forall total total', total <= total' ->
    fold_left
      (fun total order =>
         if Qle_bool minPrice (price order) && Qle_bool (price order) maxPrice
         then total + size order
         else total)
      orders total
    <= fold_left
      (fun total order =>
         if Qle_bool minPrice' (price order)
            && Qle_bool (price order) maxPrice'
         then total + size order
         else total)
      orders total'.
Proof.
  intros Hvalid Hlo Hhi.
  induction Hvalid as [|o r [_ Hsize] _ IH]; intros total total' Hle; simpl.
  - exact Hle.
  - apply IH.
    destruct (Qle_bool minPrice (price o) && Qle_bool (price o) maxPrice)
      eqn:E;
      destruct (Qle_bool minPrice' (price o) && Qle_bool (price o) maxPrice')
        eqn:E'; try lra.
    apply band_test_iff in E. destruct E as [E1 E2].
    assert (in_band minPrice' maxPrice' o) as Hin by (split; lra).
    apply band_test_iff in Hin. congruence.
Qed.

(** C6: on orders with positive sizes, a band that contains another one
    has at least its depth. *)
Theorem calcDepth_monotone (orders : list Order)
    (minPrice maxPrice minPrice' maxPrice' : Q) :
  Forall valid_order orders ->
  minPrice' <= minPrice -> maxPrice <= maxPrice' ->
  calcDepth orders minPrice maxPrice <= calcDepth orders minPrice' maxPrice'.
Proof.
  intros Hvalid Hlo Hhi. unfold calcDepth.
  apply depth_loop_mono; try assumption. lra.
Qed.

Lemma calcDepth_monotone_witness :
  calcDepth (asks sample_book) 101 101 <= calcDepth (asks sample_book) 100 102.
Proof.
  apply (calcDepth_monotone (asks sample_book) 101 101 100 102).
  - repeat constructor.
  - vm_compute. discriminate.
  - vm_compute. discriminate.
Defined.

(** ** VWAP sweeper: binary64 values as numbers *)

Lemma digits2_size (m : positive) : digits2_pos m = Pos.size m.
Proof. induction m; simpl; congruence. Qed.

(** A mantissa in canonical form has at most 53 bits, and exactly 53 unless
    the exponent is the least one. *)
Lemma canonical_bounds (m : positive) (e : Z) :
  canonical_mantissa prec emax m e = true ->
  (Zpos m < 2 ^ 53)%Z /\ (emin <= e)%Z /\
  ((emin < e)%Z -> (2 ^ 52 <= Zpos m)%Z).
Proof.
  unfold canonical_mantissa, fexp, SpecFloat.emin, prec, emax.
  rewrite digits2_size. intros H. apply Z.eqb_eq in H.
  pose proof (Pos.size_gt m) as Hgt. pose proof (Pos.size_le m) as Hle.
  assert (Hd : (Zpos (Pos.size m) <= 53)%Z) by lia.
  split; [|split].
  - apply Pos2Z.pos_lt_pos in Hgt. rewrite Pos2Z.inj_pow in Hgt.
    eapply Z.lt_le_trans; [exact Hgt|].
    apply Z.pow_le_mono_r; lia.
  - lia.
  - intros He. assert (Hs : Zpos (Pos.size m) = 53%Z) by lia.
    apply Pos2Z.pos_le_pos in Hle. rewrite Pos2Z.inj_pow, Hs in Hle.
    change (2 ^ 53)%Z with (2 * 2 ^ 52)%Z in Hle.
    rewrite Pos2Z.inj_xO in Hle. lia.
Qed.

Lemma pow2_pos (e : Z) : 0 < 2 ^ e.
Proof. apply Qpower_0_lt. reflexivity. Qed.

Lemma mag_pos (m : positive) (e : Z) : 0 < B64.mag m e.
Proof.
  unfold B64.mag. apply Qmult_lt_0_compat; [|apply pow2_pos].
  change 0 with (inject_Z 0). rewrite <- Zlt_Qlt. lia.
Qed.

(** Between canonical forms the greater exponent has the greater
    magnitude. *)
Lemma mag_lt_exp (m1 m2 : positive) (e1 e2 : Z) :
  canonical_mantissa prec emax m1 e1 = true ->
  canonical_mantissa prec emax m2 e2 = true ->
  (e1 < e2)%Z -> B64.mag m1 e1 < B64.mag m2 e2.
Proof.
  intros C1 C2 He.
  destruct (canonical_bounds m1 e1 C1) as (Hm1 & Hmin1 & _).
  destruct (canonical_bounds m2 e2 C2) as (_ & _ & Hm2).
  specialize (Hm2 ltac:(lia)).
  unfold B64.mag.
  replace e2 with ((e2 - e1) + e1)%Z by lia.
  rewrite Qpower_plus by discriminate.
  rewrite <- (Zpower_Qpower 2 (e2 - e1)) by lia.
  rewrite Qmult_assoc, <- inject_Z_mult.
  apply Qmult_lt_compat_r; [apply pow2_pos|].
  rewrite <- Zlt_Qlt.
  assert (H : (2 ^ 1 <= 2 ^ (e2 - e1))%Z) by (apply Z.pow_le_mono_r; lia).
  eapply Z.lt_le_trans; [exact Hm1|].
  change (2 ^ 53)%Z with (2 ^ 52 * 2 ^ 1)%Z.
  apply Z.mul_le_mono_nonneg; [lia|exact Hm2|lia|exact H].
Qed.

Lemma Qcompare_lt (x y : Q) : x < y -> (x ?= y) = Lt.
Proof. exact (proj1 (Qlt_alt x y)). Qed.

Lemma Qcompare_gt (x y : Q) : y < x -> (x ?= y) = Gt.
Proof. exact (proj1 (Qgt_alt x y)). Qed.

Lemma Qcompare_opp (x y : Q) : (- x ?= - y) = CompOpp (x ?= y).
Proof.
  unfold Qcompare. simpl.
  now rewrite !Z.mul_opp_l, Z.compare_opp, Z.compare_antisym.
Qed.

Lemma mag_compare (m1 m2 : positive) (e : Z) :
  (B64.mag m1 e ?= B64.mag m2 e) = (m1 ?= m2)%positive.
Proof.
  pose proof (pow2_pos e) as Hp. unfold B64.mag.
  destruct (m1 ?= m2)%positive eqn:C.
  - apply Pos.compare_eq in C. subst. apply Qeq_alt. reflexivity.
  - apply Qcompare_lt. apply Qmult_lt_compat_r; [exact Hp|].
    rewrite <- Zlt_Qlt. apply -> Pos.compare_lt_iff in C. lia.
  - apply Qcompare_gt. apply Qmult_lt_compat_r; [exact Hp|].
    rewrite <- Zlt_Qlt. apply -> Pos.compare_gt_iff in C. lia.
Qed.

Lemma mag_compare_valid (m1 m2 : positive) (e1 e2 : Z) :
  canonical_mantissa prec emax m1 e1 = true ->
  canonical_mantissa prec emax m2 e2 = true ->
  (B64.mag m1 e1 ?= B64.mag m2 e2)
  = match (e1 ?= e2)%Z with
    | Lt => Lt
    | Gt => Gt
    | Eq => Pos.compare_cont Eq m1 m2
    end.
Proof.
  intros C1 C2. destruct (e1 ?= e2)%Z eqn:C.
  - apply Z.compare_eq in C. subst. apply mag_compare.
  - apply Qcompare_lt. apply mag_lt_exp; assumption.
  - apply Qcompare_gt. apply mag_lt_exp; try assumption.
    apply -> Z.compare_gt_iff in C. lia.
Qed.

(** The comparison of IEEE 754 on finite values is the comparison of the
    numbers they stand for. *)
Lemma SFcompare_value (x y : spec_float) :
  valid_binary x = true -> valid_binary y = true ->
  B64.SFfinite x = true -> B64.SFfinite y = true ->
  SFcompare x y = Some (B64.SF2Q x ?= B64.SF2Q y).
Proof.
  intros Vx Vy Fx Fy.
  destruct x as [sx|sx| |sx mx ex]; try discriminate;
    destruct y as [sy|sy| |sy my ey]; try discriminate;
    cbn [B64.SF2Q SFcompare].
  - reflexivity.
  - f_equal. pose proof (mag_pos my ey) as Hp.
    destruct sy; symmetry.
    + apply Qcompare_gt. lra.
    + apply Qcompare_lt. lra.
  - f_equal. pose proof (mag_pos mx ex) as Hp.
    destruct sx; symmetry.
    + apply Qcompare_lt. lra.
    + apply Qcompare_gt. lra.
  - f_equal. cbn [valid_binary] in Vx, Vy. unfold bounded in Vx, Vy.
    apply andb_true_iff in Vx, Vy. destruct Vx as [Cx _], Vy as [Cy _].
    pose proof (mag_pos mx ex) as Hx. pose proof (mag_pos my ey) as Hy.
    destruct sx, sy.
    + rewrite Qcompare_opp, (mag_compare_valid mx my ex ey Cx Cy).
      now destruct (ex ?= ey)%Z.
    + symmetry. apply Qcompare_lt. lra.
    + symmetry. apply Qcompare_gt. lra.
    + now rewrite (mag_compare_valid mx my ex ey Cx Cy).
Qed.

Lemma ltb_value (x y : float) :
  B64.is_finite x = true -> B64.is_finite y = true ->
  ((x <? y)%float = true <-> B64.value x < B64.value y).
Proof.
  intros Fx Fy. rewrite ltb_spec. unfold SFltb.
  rewrite (SFcompare_value _ _ (Prim2SF_valid x) (Prim2SF_valid y) Fx Fy).
  fold (B64.value x) (B64.value y). rewrite Qlt_alt.
  destruct (B64.value x ?= B64.value y); split; congruence.
Qed.

Lemma leb_value (x y : float) :
  B64.is_finite x = true -> B64.is_finite y = true ->
  ((x <=? y)%float = true <-> B64.value x <= B64.value y).
Proof.
  intros Fx Fy. rewrite leb_spec. unfold SFleb.
  rewrite (SFcompare_value _ _ (Prim2SF_valid x) (Prim2SF_valid y) Fx Fy).
  fold (B64.value x) (B64.value y). rewrite Qle_alt.
  destruct (B64.value x ?= B64.value y); split; congruence.
Qed.

Lemma eqb_value (x y : float) :
  B64.is_finite x = true -> B64.is_finite y = true ->
  ((x =? y)%float = true <-> B64.value x == B64.value y).
Proof.
  intros Fx Fy. rewrite eqb_spec. unfold SFeqb.
  rewrite (SFcompare_value _ _ (Prim2SF_valid x) (Prim2SF_valid y) Fx Fy).
  fold (B64.value x) (B64.value y). rewrite Qeq_alt.
  destruct (B64.value x ?= B64.value y); split; congruence.
Qed.

Lemma leb_zero (x : float) :
  B64.is_finite x = true -> ((x <=? 0)%float = true <-> B64.value x <= 0).
Proof. intros F. exact (leb_value x 0 F eq_refl). Qed.

Lemma ltb_zero (x : float) :
  B64.is_finite x = true -> ((0 <? x)%float = true <-> 0 < B64.value x).
Proof. intros F. exact (ltb_value 0 x eq_refl F). Qed.

Lemma eqb_zero (x : float) :
  B64.is_finite x = true -> ((x =? 0)%float = true <-> B64.value x == 0).
Proof. intros F. exact (eqb_value x 0 F eq_refl). Qed.

(** On finite values [std::min] is the lesser of the two numbers. *)
Lemma std_min_fmin (a b : float) :
  B64.is_finite a = true -> B64.is_finite b = true ->
  B64.std_min a b = B64.fmin a b /\
  B64.is_finite (B64.fmin a b) = true /\
  B64.value (B64.fmin a b) == Qmin (B64.value a) (B64.value b).
Proof.
  intros Fa Fb. unfold B64.std_min, B64.fmin.
  pose proof (ltb_value b a Fb Fa) as Hlt.
  pose proof (leb_value a b Fa Fb) as Hle.
  destruct (b <? a)%float; destruct (a <=? b)%float.
  - assert (B64.value b < B64.value a) by now apply Hlt.
    assert (B64.value a <= B64.value b) by now apply Hle. lra.
  - repeat split; try assumption.
    assert (B64.value b < B64.value a) by now apply Hlt.
    rewrite Q.min_r; [reflexivity|lra].
  - repeat split; try assumption.
    assert (B64.value a <= B64.value b) by now apply Hle.
    rewrite Q.min_l; [reflexivity|lra].
  - destruct (Qlt_le_dec (B64.value b) (B64.value a)) as [L|L].
    + apply Hlt in L. discriminate.
    + apply Hle in L. discriminate.
Qed.

Lemma exact_sub_value (a b : float) :
  B64.exact_sub a b = true ->
  B64.is_finite (a - b) = true /\
  B64.value (a - b) == B64.value a - B64.value b.
Proof.
  unfold B64.exact_sub. rewrite andb_true_iff, Qeq_bool_iff. tauto.
Qed.

Lemma b64_total_size_nonneg (levels : list B64.Order) :
  Forall B64.valid_order levels -> 0 <= B64.total_size levels.
Proof.
  induction 1 as [|o r (_ & _ & _ & Ho) _ IH]; simpl; lra.
Qed.

(** ** VWAP sweeper *)

(** A walk without rounding: what is left is the shortfall of the levels,
    the cost is the value of the fills, and the fills add up to the lesser
    of the quantity and the total size. *)
Lemma vwap_loop_exact (levels : list B64.Order) :
  Forall B64.valid_order levels ->
  forall remaining totalCost,
    B64.is_finite remaining = true -> 0 <= B64.value remaining ->
    B64.exact_walk levels remaining = true ->
    B64.is_finite (fst (B64.vwap_loop levels remaining totalCost)) = true /\
    B64.value (fst (B64.vwap_loop levels remaining totalCost))
      == Qmax 0 (B64.value remaining - B64.total_size levels) /\
    snd (B64.vwap_loop levels remaining totalCost)
      = fold_left B64.add_fill
          (combine (B64.sweep_fills levels remaining) levels) totalCost /\
    B64.sum_values (B64.sweep_fills levels remaining)
      == Qmin (B64.value remaining) (B64.total_size levels).
Proof.
  induction 1 as [|level rest (_ & _ & Fs & Hs) Hrest IH];
    intros remaining totalCost Fr Hr Hex; simpl.
  - repeat split; try assumption.
    + rewrite Q.max_r; lra.
    + rewrite Q.min_r; [reflexivity|lra].
  - pose proof (b64_total_size_nonneg rest Hrest) as Hnn.
    pose proof (leb_zero remaining Fr) as Hle.
    pose proof (eqb_zero remaining Fr) as Heq.
    destruct (remaining <=? 0)%float eqn:E.
    + assert (Hz : B64.value remaining == 0).
      { assert (B64.value remaining <= 0) by now apply Hle. lra. }
      assert (Ez : (remaining =? 0)%float = true) by now apply Heq.
      rewrite Ez. simpl.
      repeat split; try assumption.
      * rewrite Q.max_l; lra.
      * rewrite Q.min_l; lra.
    + assert (Hpos : 0 < B64.value remaining).
      { apply Qnot_le_lt. intros H. apply Hle in H. congruence. }
      destruct (remaining =? 0)%float eqn:Ez.
      { assert (B64.value remaining == 0) by now apply Heq. lra. }
      simpl in Hex. rewrite Ez in Hex. simpl in Hex.
      apply andb_true_iff in Hex. destruct Hex as [Hsub Hwalk].
      destruct (std_min_fmin remaining (B64.size level) Fr Fs)
        as (Emin & Fmin & Vmin).
      rewrite Emin.
      destruct (exact_sub_value _ _ Hsub) as [Fd Vd].
      pose proof (Q.le_min_l (B64.value remaining)
                             (B64.value (B64.size level))) as Ml.
      pose proof (Q.le_min_r (B64.value remaining)
                             (B64.value (B64.size level))) as Mr.
      destruct (IH (remaining - B64.fmin remaining (B64.size level))%float
                   (totalCost
                    + B64.fmin remaining (B64.size level)
                      * B64.price level)%float
                   Fd ltac:(lra) Hwalk) as (I1 & I2 & I3 & I4).
      split; [exact I1|]. split; [|split].
      * rewrite I2, Vd, Vmin.
        destruct (Q.min_spec (B64.value remaining)
                             (B64.value (B64.size level))) as [[L ->]|[L ->]].
        -- rewrite !Q.max_l; lra.
        -- apply Q.max_compat; [reflexivity|lra].
      * exact I3.
      * simpl. rewrite I4, Vd, Vmin.
        destruct (Q.min_spec (B64.value remaining)
                             (B64.value (B64.size level))) as [[L ->]|[L ->]].
        -- rewrite Q.min_l by lra. rewrite Q.min_l by lra. lra.
        -- destruct (Q.min_spec
                       (B64.value remaining - B64.value (B64.size level))
                       (B64.total_size rest)) as [[L1 ->]|[L1 ->]].
           ++ rewrite Q.min_l by lra. lra.
           ++ rewrite Q.min_r by lra. lra.
Qed.

(** The outcome of a sweep whose walk is not rounded. *)
Lemma calcVWAP_exact (sweep : Sweep) (levels : list B64.Order)
    (targetQty : float) :
  Forall B64.valid_order levels ->
  B64.is_finite targetQty = true -> 0 < B64.value targetQty ->
  B64.exact_walk levels targetQty = true ->
  (B64.total_size levels < B64.value targetQty ->
   B64.calcVWAP sweep levels targetQty
     = B64.Throw (B64.InsufficientLiquidity sweep targetQty)) /\
  (B64.value targetQty <= B64.total_size levels ->
   B64.calcVWAP sweep levels targetQty
     = B64.Ok (B64.fills_value (B64.sweep_fills levels targetQty) levels
               / targetQty)%float).
Proof.
  intros Hvalid Ft Hpos Hex. unfold B64.calcVWAP, B64.fills_value.
  destruct (vwap_loop_exact levels Hvalid targetQty 0%float Ft
              ltac:(lra) Hex) as (Fr & Vr & Hc & _).
  destruct (B64.vwap_loop levels targetQty 0) as [remaining total].
  simpl in Fr, Vr, Hc. pose proof (ltb_zero remaining Fr) as Hlt.
  split; intros Hcmp.
  - rewrite Q.max_r in Vr by lra.
    assert (E : (0 <? remaining)%float = true) by (apply Hlt; lra).
    now rewrite E.
  - rewrite Q.max_l in Vr by lra.
    destruct (0 <? remaining)%float eqn:E.
    + assert (0 < B64.value remaining) by now apply Hlt. lra.
    + now rewrite Hc.
Qed.





(** Sizes 0.1, 0.1 and 0.2 hold 0.4 exactly, and the sweep for 0.4 throws:
    its first subtraction, 0.4 - 0.1, is rounded up.  Sizes 18.52, 5.08,
    3.22 and 13.18 hold less than 40, and the sweep for 40 returns. *)
Example sweeps_rounded :
  B64.total_size B64.tenths == B64.value 0.4 /\
  B64.calcVWAPBuy B64.tenths 0.4
    = B64.Throw (B64.InsufficientLiquidity Buy 0.4) /\
  B64.total_size B64.forty_short < B64.value 40 /\
  B64.calcVWAPBuy B64.forty_short 40 = B64.Ok 1%float.
Proof. repeat split; vm_compute; reflexivity. Qed.

(** C3, as stated, fails in both directions: a sweep that fails although
    the levels hold the quantity, and a sweep that returns although they
    do not. *)
Lemma vwap_insufficient_liquidity_counterexample :
  ~ (forall levels targetQty,
       Forall B64.valid_order levels ->
       B64.is_finite targetQty = true -> 0 < B64.value targetQty ->
       B64.calcVWAPBuy levels targetQty
         = B64.Throw (B64.InsufficientLiquidity Buy targetQty) ->
       B64.total_size levels < B64.value targetQty) /\
  ~ (forall levels targetQty,
       Forall B64.valid_order levels ->
       B64.is_finite targetQty = true -> 0 < B64.value targetQty ->
       B64.total_size levels < B64.value targetQty ->
       B64.calcVWAPBuy levels targetQty
         = B64.Throw (B64.InsufficientLiquidity Buy targetQty)).
Proof.
  destruct sweeps_rounded as (Htotal & Hthrow & Hshort & Hok). split.
  - intros H.
    assert (Hlt : B64.total_size B64.tenths < B64.value 0.4).
    { apply H; [repeat constructor|reflexivity|reflexivity|exact Hthrow]. }
    rewrite Htotal in Hlt. exact (Qlt_irrefl _ Hlt).
  - intros H.
    assert (Ht : B64.calcVWAPBuy B64.forty_short 40
                 = B64.Throw (B64.InsufficientLiquidity Buy 40)).
    { apply H; [repeat constructor|reflexivity|reflexivity|exact Hshort]. }
    rewrite Hok in Ht. discriminate.
Qed.

(** C3 (amended): for levels of positive size and a positive quantity, when
    no subtraction from the running remainder is rounded, a sweep fails
    with InsufficientLiquidity exactly when the quantity exceeds the total
    size of the levels, and returns a result exactly when it does not. *)
Theorem vwap_insufficient_liquidity (levels : list B64.Order)
    (targetQty : float) :
  Forall B64.valid_order levels ->
  B64.is_finite targetQty = true -> 0 < B64.value targetQty ->
  B64.exact_walk levels targetQty = true ->
  (B64.calcVWAPBuy levels targetQty
     = B64.Throw (B64.InsufficientLiquidity Buy targetQty)
   <-> B64.total_size levels < B64.value targetQty) /\
  (B64.calcVWAPSell levels targetQty
     = B64.Throw (B64.InsufficientLiquidity Sell targetQty)
   <-> B64.total_size levels < B64.value targetQty) /\
  ((exists r, B64.calcVWAPBuy levels targetQty = B64.Ok r)
   <-> B64.value targetQty <= B64.total_size levels) /\
  ((exists r, B64.calcVWAPSell levels targetQty = B64.Ok r)
   <-> B64.value targetQty <= B64.total_size levels).
Proof.
  intros Hvalid Ft Hpos Hex.
  assert (H : forall sweep,
            (B64.calcVWAP sweep levels targetQty
               = B64.Throw (B64.InsufficientLiquidity sweep targetQty)
             <-> B64.total_size levels < B64.value targetQty) /\
            ((exists r, B64.calcVWAP sweep levels targetQty = B64.Ok r)
             <-> B64.value targetQty <= B64.total_size levels)).
  { intros sweep.
    destruct (calcVWAP_exact sweep levels targetQty Hvalid Ft Hpos Hex)
      as [Hthrow Hok].
    destruct (Qlt_le_dec (B64.total_size levels) (B64.value targetQty))
      as [Hlt|Hle].
    - rewrite (Hthrow Hlt). split; split; intros H.
      + exact Hlt.
      + reflexivity.
      + destruct H as (r & H). discriminate.
      + lra.
    - rewrite (Hok Hle). split; split; intros H.
      + discriminate.
      + lra.
      + exact Hle.
      + eexists. reflexivity. }
  unfold B64.calcVWAPBuy, B64.calcVWAPSell.
  destruct (H Buy) as [B1 B2]. destruct (H Sell) as [S1 S2].
  split; [exact B1|]. split; [exact S1|]. split; [exact B2|exact S2].
Qed.

Lemma vwap_insufficient_liquidity_witness :
  B64.calcVWAPBuy B64.sample_asks 19
    = B64.Throw (B64.InsufficientLiquidity Buy 19)
  <-> B64.total_size B64.sample_asks < B64.value 19.
Proof.
  apply (vwap_insufficient_liquidity B64.sample_asks 19%float).
  - repeat constructor.
  - reflexivity.
  - reflexivity.
  - reflexivity.
Defined.

(** ** Analytics orchestrator *)

(** C4: on a loaded book, the Stats that [calcStats] returns hold the first
    bid's and first ask's price, their mean, their difference, the
    difference as a percentage of the mean, the depth of each side in the
    band of depthPct percent around the mean, and the results of the two
    sweeps; it returns Stats when both sweeps return, and when a sweep
    throws it throws the same exception and returns no Stats. *)
Theorem calcStats_fields (sort : StdSort) (fs : filesystem) (filename : string)
    (book : Orderbook) (depthPct targetQty : Q) :
  loadCSV sort fs filename = Ok book ->
  exists b0 a0,
    hd_error (bids book) = Some b0 /\ hd_error (asks book) = Some a0 /\
    (forall s, calcStats book depthPct targetQty = Ok s ->
       bestBid s = price b0 /\
       bestAsk s = price a0 /\
       midPrice s = (bestBid s + bestAsk s) / 2 /\
       0 < midPrice s /\
       spread s = bestAsk s - bestBid s /\
       spreadPct s = spread s / midPrice s * 100 /\
       bidDepth s = calcDepth (bids book)
                      (midPrice s * (1 - depthPct / 100))
                      (midPrice s * (1 + depthPct / 100)) /\
       askDepth s = calcDepth (asks book)
                      (midPrice s * (1 - depthPct / 100))
                      (midPrice s * (1 + depthPct / 100)) /\
       calcVWAPBuy (asks book) targetQty = Ok (vwapBuy s) /\
       calcVWAPSell (bids book) targetQty = Ok (vwapSell s)) /\
    (forall vb vs,
       calcVWAPBuy (asks book) targetQty = Ok vb ->
       calcVWAPSell (bids book) targetQty = Ok vs ->
       exists s, calcStats book depthPct targetQty = Ok s) /\
    (forall e,
       calcVWAPBuy (asks book) targetQty = Throw e ->
       calcStats book depthPct targetQty = Throw e) /\
    (forall vb e,
       calcVWAPBuy (asks book) targetQty = Ok vb ->
       calcVWAPSell (bids book) targetQty = Throw e ->
       calcStats book depthPct targetQty = Throw e).
Proof.
  intros Hload.
  destruct (loadCSV_valid _ _ _ _ Hload) as [Vb Va].
  destruct (loadCSV_Ok _ _ _ _ Hload)
    as (_ & _ & b0 & bs & a0 & ass & _ & _ & _ & _ & Eb & Ea & _).
  rewrite Eb in Vb. rewrite Ea in Va.
  apply Forall_inv in Vb, Va. destruct Vb as [Pb _]. destruct Va as [Pa _].
  exists b0, a0. unfold calcStats. rewrite Eb, Ea. simpl.
  split; [reflexivity|]. split; [reflexivity|].
  split; [|split; [|split]].
  - intros s H.
    destruct (calcVWAPBuy (a0 :: ass) targetQty) as [vb| |];
      try discriminate.
    destruct (calcVWAPSell (b0 :: bs) targetQty) as [vs| |];
      try discriminate.
    simpl in H. injection H as <-. simpl. repeat split.
    apply Qlt_shift_div_l; lra.
  - intros vb vs -> ->. simpl. eexists. reflexivity.
  - intros e ->. reflexivity.
  - intros vb e -> ->. reflexivity.
Qed.

Lemma calcStats_fields_witness :
  exists b0 a0,
    hd_error (bids sample_book) = Some b0 /\
    hd_error (asks sample_book) = Some a0 /\
    calcStats sample_book 0.5 40
      = Throw (InsufficientLiquidity Buy 40).
Proof.
  destruct (calcStats_fields insertion_StdSort sample_fs "orderbook.csv"
              sample_book 0.5 40 sample_loads)
    as (b0 & a0 & Hb & Ha & _ & _ & Hthrow & _).
  exists b0, a0. split; [exact Hb|]. split; [exact Ha|].
  apply Hthrow. vm_compute. reflexivity.
Defined.

(** ** Row parser *)

(** The row parser's results, case by case. *)
Lemma parseRow_cases (line : string) (lineNumber : Z) :
  let sideStr := trim (field 0 line) in
  let priceStr := trim (field 1 line) in
  let sizeStr := trim (field 2 line) in
  (sideStr = "" \/ priceStr = "" \/ sizeStr = "" ->
   parseRow line lineNumber = Throw (MalformedRow lineNumber)) /\
  (sideStr <> "" -> priceStr <> "" -> sizeStr <> "" ->
   parseRow line lineNumber =
     s <- parseSide sideStr ;;
     p <- parseDouble priceStr "price" ;;
     z <- parseDouble sizeStr "size" ;;
     Ok (mkOrder s p z)).
Proof.
  intros sideStr priceStr sizeStr. unfold parseRow.
  fold sideStr priceStr sizeStr. split.
  - intros H.
    assert (E : empty sideStr || empty priceStr || empty sizeStr = true).
    { rewrite !orb_true_iff, !empty_true. tauto. }
    now rewrite E.
  - intros H0 H1 H2. apply empty_false in H0, H1, H2.
    now rewrite H0, H1, H2.
Qed.

(** C7, as stated, fails in both directions.  The price field of
    bid,100abc,5 is not the text of a number, and the row is accepted with
    the price 100: [std::stod] reads the number at the head of the field
    and leaves the rest.  The fields of bid,1e-320,5 are the texts of
    positive numbers, and the row is rejected: [std::stod] reports a value
    below the normal range of [double] as out of range. *)
Lemma parseRow_invalid_number_counterexample :
  ~ (forall line lineNumber s,
       trim (field 0 line) <> "" -> trim (field 1 line) <> "" ->
       trim (field 2 line) <> "" ->
       parseSide (trim (field 0 line)) = Ok s ->
       not_positive_number (trim (field 1 line))
       \/ not_positive_number (trim (field 2 line)) ->
       exists fieldName raw,
         parseRow line lineNumber = Throw (InvalidNumber fieldName raw)) /\
  ~ (forall line lineNumber s,
       trim (field 0 line) <> "" -> trim (field 1 line) <> "" ->
       trim (field 2 line) <> "" ->
       parseSide (trim (field 0 line)) = Ok s ->
       (exists fieldName raw,
          parseRow line lineNumber = Throw (InvalidNumber fieldName raw)) ->
       not_positive_number (trim (field 1 line))
       \/ not_positive_number (trim (field 2 line))).
Proof.
  split; intros H.
  - assert (Hrow : exists fieldName raw,
              parseRow "bid,100abc,5" 2
              = Throw (InvalidNumber fieldName raw)).
    { apply (H "bid,100abc,5" 2%Z BID).
      - vm_compute. discriminate.
      - vm_compute. discriminate.
      - vm_compute. discriminate.
      - reflexivity.
      - left. exact I. }
    destruct Hrow as (fieldName & raw & Hrow).
    vm_compute in Hrow. discriminate.
  - assert (Hnum : not_positive_number "1e-320" \/ not_positive_number "5").
    { apply (H "bid,1e-320,5" 2%Z BID).
      - vm_compute. discriminate.
      - vm_compute. discriminate.
      - vm_compute. discriminate.
      - reflexivity.
      - exists "price", "1e-320". vm_compute. reflexivity. }
    destruct Hnum as [Hp|Hz].
    + vm_compute in Hp. apply Hp. reflexivity.
    + vm_compute in Hz. apply Hz. reflexivity.
Qed.

(** C7 (amended): on a line whose three fields are not empty after trimming
    and whose side is bid or ask, the row parser fails with InvalidNumber
    exactly when [std::stod] does not read a finite positive number from the
    price or from the size: it finds no number at the head of the field,
    reports the number out of the range of [double], or returns an
    infinity, a NaN or a number that is not positive.  The error names the
    price when the price is at fault, the size otherwise.  The row
    bid,-1.0,5 fails with InvalidNumber for its price. *)
Theorem parseRow_invalid_number :
  (forall line lineNumber s,
     trim (field 0 line) <> "" -> trim (field 1 line) <> "" ->
     trim (field 2 line) <> "" ->
     parseSide (trim (field 0 line)) = Ok s ->
     ((exists fieldName raw,
         parseRow line lineNumber = Throw (InvalidNumber fieldName raw))
      <-> rejected_number (trim (field 1 line))
          \/ rejected_number (trim (field 2 line))) /\
     (rejected_number (trim (field 1 line)) ->
      parseRow line lineNumber
        = Throw (InvalidNumber "price" (trim (field 1 line)))) /\
     (~ rejected_number (trim (field 1 line)) ->
      rejected_number (trim (field 2 line)) ->
      parseRow line lineNumber
        = Throw (InvalidNumber "size" (trim (field 2 line))))) /\
  (forall lineNumber,
     parseRow "bid,-1.0,5" lineNumber = Throw (InvalidNumber "price" "-1.0")).
Proof.
  split; [|intros; vm_compute; reflexivity].
  intros line lineNumber s H0 H1 H2 Hside.
  destruct (parseRow_cases line lineNumber) as [_ Hrow].
  rewrite (Hrow H0 H1 H2), Hside. simpl. clear Hrow.
  assert (Hp : rejected_number (trim (field 1 line)) ->
               parseDouble (trim (field 1 line)) "price"
               = Throw (InvalidNumber "price" (trim (field 1 line))))
    by apply parseDouble_rejected.
  assert (Hz : rejected_number (trim (field 2 line)) ->
               parseDouble (trim (field 2 line)) "size"
               = Throw (InvalidNumber "size" (trim (field 2 line))))
    by apply parseDouble_rejected.
  pose proof (parseDouble_accepted (trim (field 1 line)) "price") as Ap.
  pose proof (parseDouble_accepted (trim (field 2 line)) "size") as Az.
  assert (Dp : rejected_number (trim (field 1 line))
               \/ ~ rejected_number (trim (field 1 line))).
  { unfold rejected_number.
    destruct (stod (trim (field 1 line))) as [[v| |]| |]; auto.
    destruct (Qlt_le_dec 0 v); [right; lra|now left]. }
  assert (Dz : rejected_number (trim (field 2 line))
               \/ ~ rejected_number (trim (field 2 line))).
  { unfold rejected_number.
    destruct (stod (trim (field 2 line))) as [[v| |]| |]; auto.
    destruct (Qlt_le_dec 0 v); [right; lra|now left]. }
  split; [|split].
  - destruct Dp as [Rp|Np].
    + rewrite (Hp Rp). simpl. split; [now left|]. intros _. now do 2 eexists.
    + destruct (Ap Np) as (p & _ & _ & ->). simpl.
      destruct Dz as [Rz|Nz].
      * rewrite (Hz Rz). simpl. split; [now right|]. intros _.
        now do 2 eexists.
      * destruct (Az Nz) as (z & _ & _ & ->). simpl. split.
        -- intros (f & raw & H). discriminate.
        -- tauto.
  - intros Rp. now rewrite (Hp Rp).
  - intros Np Rz. destruct (Ap Np) as (p & _ & _ & ->). simpl.
    now rewrite (Hz Rz).
Qed.

Lemma parseRow_invalid_number_witness :
  parseRow "ask, 7.5 ,0" 3 = Throw (InvalidNumber "size" "0").
Proof.
  destruct (proj1 parseRow_invalid_number "ask, 7.5 ,0" 3%Z ASK)
    as (_ & _ & Hsize).
  - vm_compute. discriminate.
  - vm_compute. discriminate.
  - vm_compute. discriminate.
  - reflexivity.
  - apply Hsize.
    + vm_compute. intros H. apply H. reflexivity.
    + vm_compute. discriminate.
Defined.

(** C8: a line with a field that is empty after trimming among its first
    three fails with MalformedRow and its line number, whatever its side
    and numbers are; the row ,100.0,5 does. *)
Theorem parseRow_malformed :
  (forall line lineNumber,
     trim (field 0 line) = "" \/ trim (field 1 line) = ""
     \/ trim (field 2 line) = "" ->
     parseRow line lineNumber = Throw (MalformedRow lineNumber)) /\
  (forall lineNumber,
     parseRow ",100.0,5" lineNumber = Throw (MalformedRow lineNumber)).
Proof.
  split.
  - intros line lineNumber. apply parseRow_cases.
  - intros lineNumber. reflexivity.
Qed.

Lemma parseRow_malformed_witness :
  parseRow "buy,  ,x" 4 = Throw (MalformedRow 4).
Proof.
  apply (proj1 parseRow_malformed "buy,  ,x" 4%Z).
  right. left. reflexivity.
Defined.

Lemma getlines_field (delim : ascii) (f r : string) :
  contains delim f = false ->
  getlines delim (f ++ String delim r)%string = f :: getlines delim r.
Proof.
  induction f as [|c f IH]; simpl; intros H.
  - now rewrite Ascii.eqb_refl.
  - apply orb_false_iff in H. destruct H as [Hc Hf].
    rewrite Hc, (IH Hf). reflexivity.
Qed.

(** C10: a line with more than three fields whose first three are a valid
    side, price and size parses to that order, whatever follows the third
    comma; bid,100.0,5,garbage parses to a bid of price 100 and size 5. *)
Theorem parseRow_ignores_extra_fields :
  (forall f1 f2 f3 rest lineNumber s p z,
     contains "," f1 = false -> contains "," f2 = false ->
     contains "," f3 = false ->
     parseSide (trim f1) = Ok s ->
     parseDouble (trim f2) "price" = Ok p ->
     parseDouble (trim f3) "size" = Ok z ->
     parseRow (f1 ++ "," ++ f2 ++ "," ++ f3 ++ "," ++ rest)%string lineNumber
       = Ok (mkOrder s p z)) /\
  (forall lineNumber,
     parseRow "bid,100.0,5,garbage" lineNumber = Ok (mkOrder BID 100 5)).
Proof.
  split; [|intros; vm_compute; reflexivity].
  intros f1 f2 f3 rest lineNumber s p z C1 C2 C3 Hs Hp Hz.
  destruct (parseRow_cases (f1 ++ "," ++ f2 ++ "," ++ f3 ++ "," ++ rest)%string
              lineNumber) as [_ Hrow].
  assert (F : getlines "," (f1 ++ "," ++ f2 ++ "," ++ f3 ++ "," ++ rest)%string
              = f1 :: f2 :: f3 :: getlines "," rest).
  { simpl. now rewrite !getlines_field. }
  unfold field in Hrow. rewrite F in Hrow. simpl in Hrow |- *.
  rewrite Hrow, Hs, Hp, Hz; try reflexivity.
  - exact (parseSide_Ok _ _ Hs).
  - exact (proj1 (parseDouble_Ok _ _ _ Hp)).
  - exact (proj1 (parseDouble_Ok _ _ _ Hz)).
Qed.

Lemma parseRow_ignores_extra_fields_witness :
  parseRow "ASK,2.5,4,x,y" 9 = Ok (mkOrder ASK (5 # 2) 4).
Proof.
  apply (proj1 parseRow_ignores_extra_fields "ASK" "2.5" "4" "x,y" 9%Z
           ASK (5 # 2) 4); reflexivity.
Defined.

(** ** Loaded books *)

(** The assumption of positive sizes holds of every book that [loadCSV]
    returns, so on such a book widening the band never lowers a depth. *)
Corollary loaded_book_analytics (sort : StdSort) (fs : filesystem)
    (filename : string) (book : Orderbook) :
  loadCSV sort fs filename = Ok book ->
  forall minPrice maxPrice minPrice' maxPrice',
    minPrice' <= minPrice -> maxPrice <= maxPrice' ->
    calcDepth (bids book) minPrice maxPrice
      <= calcDepth (bids book) minPrice' maxPrice' /\
    calcDepth (asks book) minPrice maxPrice
      <= calcDepth (asks book) minPrice' maxPrice'.
Proof.
  intros Hload lo hi lo' hi' Hlo Hhi.
  destruct (loadCSV_valid _ _ _ _ Hload) as [Vb Va]. unfold calcDepth.
  split; apply depth_loop_mono; try assumption; lra.
Qed.

(** ** Remarks on the statements above *)

(** [std::stod] reads a numeric prefix and [parseDouble] does not look at
    what follows it: such a field is accepted with the value of its
    prefix. *)
Example parseRow_numeric_prefix (lineNumber : Z) :
  parseRow "bid,100abc,5" lineNumber = Ok (mkOrder BID 100 5).
Proof. vm_compute. reflexivity. Qed.

(** A value outside the range of [double] is rejected. *)
Example parseRow_out_of_range (lineNumber : Z) :
  parseRow "bid,1e999,5" lineNumber = Throw (InvalidNumber "price" "1e999").
Proof. vm_compute. reflexivity. Qed.

(** The statements on depth and on the sweeps are about orders of the data
    model, whose sizes are positive.  [calcDepth] itself accepts any
    [Order]; with a negative size, which no parsed order has, a wider band
    can hold less. *)
Example calcDepth_negative_size :
  calcDepth [mkOrder BID 10 5; mkOrder BID 20 (-3)] 0 30
  < calcDepth [mkOrder BID 10 5; mkOrder BID 20 (-3)] 5 15.
Proof. reflexivity. Qed.

(** The report on the book of the sample file for a quantity that both
    sides can fill, with the numbers of the exact reading. *)
Example sample_stats :
  calcStats sample_book 2 12
  = Ok (mkStats 100 101 (201 # 2) 1 (200 # 201) 15 18
                (1216 # 12) (1198 # 12)).
Proof. vm_compute. reflexivity. Qed.

(** * Further properties of the program *)

(** ** [trim] *)

Lemma substring_0_0 (s : string) : substring 0 0 s = "".
Proof. now destruct s. Qed.

Lemma rtrim_find_last (r : string) :
  match find_last_not_of r with
  | Some j => substring 0 (j + 1) r
  | None => ""
  end = rtrim r.
Proof.
  induction r as [|c r IH]; simpl; [reflexivity|].
  destruct (find_last_not_of r) as [j|] eqn:E.
  - rewrite <- IH. rewrite !Nat.add_1_r. simpl.
    destruct r as [|d r']; [discriminate|]. reflexivity.
  - rewrite <- IH. destruct (is_ws c); [reflexivity|].
    simpl. now rewrite substring_0_0.
Qed.

Lemma trim_ws_cons (c : ascii) (r : string) :
  is_ws c = true -> trim (String c r) = trim r.
Proof.
  intros Hc. unfold trim. simpl. rewrite Hc.
  destruct (find_first_not_of r) as [i|]; simpl; [|reflexivity].
  destruct (find_last_not_of r) as [j|]; [|reflexivity].
  reflexivity.
Qed.

Lemma trim_nonws_cons (c : ascii) (r : string) :
  is_ws c = false -> trim (String c r) = String c (rtrim r).
Proof.
  intros Hc. unfold trim. simpl. rewrite Hc, <- rtrim_find_last.
  destruct (find_last_not_of r) as [j|]; simpl.
  - reflexivity.
  - now rewrite substring_0_0.
Qed.

Lemma rtrim_cons (c : ascii) (r : string) :
  is_ws c = false -> rtrim (String c r) = String c (rtrim r).
Proof. intros Hc. simpl. rewrite Hc. now destruct (rtrim r). Qed.

Lemma trim_ltrim_rtrim (s : string) : trim s = rtrim (ltrim s).
Proof.
  induction s as [|c r IH]; [reflexivity|].
  destruct (is_ws c) eqn:Hc.
  - rewrite (trim_ws_cons c r Hc). simpl ltrim. now rewrite Hc.
  - rewrite (trim_nonws_cons c r Hc). simpl ltrim. rewrite Hc.
    now rewrite (rtrim_cons c r Hc).
Qed.

Lemma ltrim_split (s : string) :
  exists pre, s = (pre ++ ltrim s)%string /\ all_ws pre = true.
Proof.
  induction s as [|c r (pre & Hs & Hpre)]; simpl.
  - now exists "".
  - destruct (is_ws c) eqn:Hc.
    + exists (String c pre). simpl. rewrite Hc, Hpre. now rewrite <- Hs.
    + now exists "".
Qed.

Lemma ltrim_head (s : string) (c : ascii) (r : string) :
  ltrim s = String c r -> is_ws c = false.
Proof.
  induction s as [|d s IH]; simpl; [discriminate|].
  destruct (is_ws d) eqn:Hd; [exact IH|].
  intros H. injection H as <- _. exact Hd.
Qed.

Lemma rtrim_split (s : string) :
  exists post, s = (rtrim s ++ post)%string /\ all_ws post = true.
Proof.
  induction s as [|c r (post & Hs & Hpost)]; simpl.
  - now exists "".
  - destruct (rtrim r) as [|a t] eqn:E.
    + simpl in Hs. subst r. destruct (is_ws c) eqn:Hc.
      * exists (String c post). simpl. now rewrite Hc, Hpost.
      * now exists post.
    + exists post. simpl. now rewrite Hs at 1.
Qed.

Lemma rtrim_last (s : string) (c : ascii) :
  last_char (rtrim s) = Some c -> is_ws c = false.
Proof.
  induction s as [|d r IH]; simpl; [discriminate|].
  destruct (rtrim r) as [|a t] eqn:E.
  - destruct (is_ws d) eqn:Hd; simpl; [discriminate|].
    intros H. now injection H as <-.
  - exact IH.
Qed.

Lemma ltrim_fixed (s : string) :
  (forall c r, s = String c r -> is_ws c = false) -> ltrim s = s.
Proof.
  destruct s as [|c r]; simpl; [reflexivity|].
  intros H. now rewrite (H c r eq_refl).
Qed.

Lemma rtrim_fixed (s : string) :
  (forall c, last_char s = Some c -> is_ws c = false) -> rtrim s = s.
Proof.
  induction s as [|c r IH]; intros H; [reflexivity|].
  destruct r as [|d r'].
  - simpl. now rewrite (H c eq_refl).
  - assert (Hr : rtrim (String d r') = String d r') by (apply IH; exact H).
    change (rtrim (String c (String d r')))
      with (match rtrim (String d r') with
            | EmptyString => if is_ws c then EmptyString else String c EmptyString
            | t => String c t
            end).
    now rewrite Hr.
Qed.

Lemma trim_head (s : string) (c : ascii) (r : string) :
  trim s = String c r -> is_ws c = false.
Proof.
  rewrite trim_ltrim_rtrim. destruct (ltrim s) as [|d t] eqn:E.
  - discriminate.
  - pose proof (ltrim_head _ _ _ E) as Hd.
    rewrite (rtrim_cons d t Hd). intros H. now injection H as <- _.
Qed.

Lemma trim_last (s : string) (c : ascii) :
  last_char (trim s) = Some c -> is_ws c = false.
Proof. rewrite trim_ltrim_rtrim. apply rtrim_last. Qed.

Lemma all_ws_app (a b : string) :
  all_ws (a ++ b) = all_ws a && all_ws b.
Proof.
  induction a as [|c a IH]; simpl; [reflexivity|].
  now rewrite IH, andb_assoc.
Qed.

Lemma ltrim_all_ws (s : string) : all_ws s = true -> ltrim s = "".
Proof.
  induction s as [|c r IH]; simpl; [reflexivity|].
  intros H. apply andb_true_iff in H. destruct H as [Hc Hr].
  rewrite Hc. now apply IH.
Qed.

(** X1: [trim] cuts a run of white space (blank, tab, carriage return,
    line feed) off each end and nothing else: the string is white space,
    then [trim s], then white space, and [trim s] neither starts nor ends
    with white space. *)
Theorem trim_decomposition (s : string) :
  (exists pre post,
     s = (pre ++ trim s ++ post)%string /\
     all_ws pre = true /\ all_ws post = true) /\
  (forall c r, trim s = String c r -> is_ws c = false) /\
  (forall c, last_char (trim s) = Some c -> is_ws c = false).
Proof.
  split; [|split].
  - destruct (ltrim_split s) as (pre & Hs & Hpre).
    destruct (rtrim_split (ltrim s)) as (post & Hl & Hpost).
    exists pre, post. rewrite trim_ltrim_rtrim, <- Hl. auto.
  - apply trim_head.
  - apply trim_last.
Qed.

(** X2: trimming twice is trimming once. *)
Theorem trim_idempotent (s : string) : trim (trim s) = trim s.
Proof.
  rewrite (trim_ltrim_rtrim (trim s)).
  rewrite (ltrim_fixed (trim s)) by apply trim_head.
  apply rtrim_fixed, trim_last.
Qed.

(** X3: [trim] returns the empty string exactly on the strings made of
    white space only, the empty one among them: these are the lines that
    the loader skips and the fields that the row parser calls empty. *)
Theorem trim_empty_iff_blank (s : string) :
  trim s = "" <-> all_ws s = true.
Proof.
  split.
  - intros H. destruct (ltrim_split s) as (pre & Hs & Hpre).
    destruct (rtrim_split (ltrim s)) as (post & Hl & Hpost).
    rewrite <- trim_ltrim_rtrim, H in Hl. simpl in Hl.
    rewrite Hs, Hl, all_ws_app, Hpre, Hpost. reflexivity.
  - intros H. rewrite trim_ltrim_rtrim, (ltrim_all_ws s H). reflexivity.
Qed.

(** ** [parseSide] *)

Lemma tolower_letter (c x : ascii) :
  In x ["b"; "i"; "d"; "a"; "s"; "k"]%char ->
  tolower c = x -> c = x \/ c = ascii_of_nat (nat_of_ascii x - 32).
Proof.
  intros Hx.
  destruct c as [[] [] [] [] [] [] [] []];
    simpl in Hx; decompose [or] Hx; subst; try contradiction;
    vm_compute; intros H; try discriminate H; auto.
Qed.

Lemma lowercase_three (raw : string) (x y z : ascii) :
  lowercase raw = String x (String y (String z "")) ->
  exists a b c, raw = String a (String b (String c "")) /\
                tolower a = x /\ tolower b = y /\ tolower c = z.
Proof.
  destruct raw as [|a [|b [|c [|d r]]]]; simpl; intros H; try discriminate.
  injection H as <- <- <-. now exists a, b, c.
Qed.

Lemma lowercase_bid (raw : string) :
  lowercase raw = "bid" -> In raw bid_spellings.
Proof.
  intros H. apply lowercase_three in H.
  destruct H as (a & b & c & -> & Ha & Hb & Hc).
  apply tolower_letter in Ha, Hb, Hc; simpl; auto 7.
  simpl in Ha, Hb, Hc.
  destruct Ha as [-> | ->], Hb as [-> | ->], Hc as [-> | ->]; simpl; auto 10.
Qed.

Lemma lowercase_ask (raw : string) :
  lowercase raw = "ask" -> In raw ask_spellings.
Proof.
  intros H. apply lowercase_three in H.
  destruct H as (a & b & c & -> & Ha & Hb & Hc).
  apply tolower_letter in Ha, Hb, Hc; simpl; auto 7.
  simpl in Ha, Hb, Hc.
  destruct Ha as [-> | ->], Hb as [-> | ->], Hc as [-> | ->]; simpl; auto 10.
Qed.

Lemma parseSide_Ok_spelled (raw : string) (s : Side) :
  parseSide raw = Ok s -> In raw (bid_spellings ++ ask_spellings).
Proof.
  unfold parseSide. intros H. apply in_or_app.
  destruct (String.eqb (lowercase raw) "bid") eqn:Eb.
  - left. apply lowercase_bid. now apply String.eqb_eq.
  - destruct (String.eqb (lowercase raw) "ask") eqn:Ea; [|discriminate].
    right. apply lowercase_ask. now apply String.eqb_eq.
Qed.

(** X4: [parseSide] accepts exactly the eight spellings of bid and the eight
    of ask that differ in the case of their letters.  It does not trim, and
    it does not accept a longer or shorter word; any other text is thrown
    back unchanged in InvalidSide. *)
Theorem parseSide_spellings (raw : string) :
  (parseSide raw = Ok BID <-> In raw bid_spellings) /\
  (parseSide raw = Ok ASK <-> In raw ask_spellings) /\
  (~ In raw (bid_spellings ++ ask_spellings) ->
   parseSide raw = Throw (InvalidSide raw)).
Proof.
  pose proof (lowercase_bid raw) as Hbid.
  pose proof (lowercase_ask raw) as Hask.
  assert (Hnb : lowercase raw <> "bid" -> ~ In raw bid_spellings).
  { intros Hne H. apply Hne. simpl in H.
    decompose [or] H; subst; try contradiction; reflexivity. }
  assert (Hna : lowercase raw <> "ask" -> ~ In raw ask_spellings).
  { intros Hne H. apply Hne. simpl in H.
    decompose [or] H; subst; try contradiction; reflexivity. }
  unfold parseSide.
  destruct (String.eqb (lowercase raw) "bid") eqn:Eb;
    [|destruct (String.eqb (lowercase raw) "ask") eqn:Ea].
  - apply String.eqb_eq in Eb. pose proof (Hbid Eb) as Hin.
    split; [tauto|]. split.
    + split; [discriminate|]. intros H. exfalso. revert H. apply Hna.
      rewrite Eb. discriminate.
    + intros H. exfalso. apply H, in_or_app. now left.
  - apply String.eqb_eq in Ea. pose proof (Hask Ea) as Hin.
    split; [|split; [tauto|]].
    + split; [discriminate|]. intros H. exfalso. revert H. apply Hnb.
      rewrite Ea. discriminate.
    + intros H. exfalso. apply H, in_or_app. now right.
  - apply String.eqb_neq in Eb, Ea. split; [|split].
    + split; [discriminate|]. intros H. exfalso. now apply (Hnb Eb).
    + split; [discriminate|]. intros H. exfalso. now apply (Hna Ea).
    + reflexivity.
Qed.

Lemma parseSide_spellings_witness :
  parseSide " bid" = Throw (InvalidSide " bid").
Proof.
  apply (parseSide_spellings " bid"). simpl.
  intros H. decompose [or] H; try discriminate; contradiction.
Defined.

(** ** [parseRow] *)

Lemma parseSide_cases (raw : string) :
  (exists s, parseSide raw = Ok s) \/ parseSide raw = Throw (InvalidSide raw).
Proof.
  unfold parseSide.
  destruct (String.eqb (lowercase raw) "bid"); [left; now exists BID|].
  destruct (String.eqb (lowercase raw) "ask"); [left; now exists ASK|].
  now right.
Qed.

Lemma parseDouble_cases (raw fieldName : string) :
  (exists v, parseDouble raw fieldName = Ok v) \/
  parseDouble raw fieldName = Throw (InvalidNumber fieldName raw).
Proof.
  unfold parseDouble.
  destruct (stod raw) as [[v| |]| |]; auto.
  destruct (Qle_bool v 0); [now right|left; now exists v].
Qed.

(** X5: a row whose three fields are not blank and whose side is not a
    spelling of bid or ask fails with InvalidSide carrying the trimmed side
    text, whether or not its price and size are numbers: the side is
    checked before the numbers. *)
Theorem parseRow_invalid_side_first (line : string) (lineNumber : Z) :
  trim (field 0 line) <> "" -> trim (field 1 line) <> "" ->
  trim (field 2 line) <> "" ->
  ~ In (trim (field 0 line)) (bid_spellings ++ ask_spellings) ->
  parseRow line lineNumber = Throw (InvalidSide (trim (field 0 line))).
Proof.
  intros H0 H1 H2 Hside.
  destruct (parseRow_cases line lineNumber) as [_ Hrow].
  rewrite (Hrow H0 H1 H2).
  destruct (parseSide_cases (trim (field 0 line))) as [(s & Hs)| ->];
    [|reflexivity].
  exfalso. exact (Hside (parseSide_Ok_spelled _ _ Hs)).
Qed.

Lemma parseRow_invalid_side_first_witness :
  parseRow "buy,abc,-1" 5 = Throw (InvalidSide "buy").
Proof.
  apply (parseRow_invalid_side_first "buy,abc,-1" 5%Z).
  - vm_compute. discriminate.
  - vm_compute. discriminate.
  - vm_compute. discriminate.
  - vm_compute. intros H. decompose [or] H; try discriminate; contradiction.
Defined.

Lemma parseRow_Ok_iff (line : string) (lineNumber : Z) (o : Order) :
  parseRow line lineNumber = Ok o <->
  parseSide (trim (field 0 line)) = Ok (side o) /\
  parseDouble (trim (field 1 line)) "price" = Ok (price o) /\
  parseDouble (trim (field 2 line)) "size" = Ok (size o).
Proof.
  destruct (parseRow_cases line lineNumber) as [Hbad Hrow]. split.
  - intros H. unfold parseRow in H.
    destruct (empty (trim (field 0 line)) || empty (trim (field 1 line))
              || empty (trim (field 2 line))); [discriminate|].
    apply bind_Ok in H. destruct H as (s & Hs & H).
    apply bind_Ok in H. destruct H as (p & Hp & H).
    apply bind_Ok in H. destruct H as (z & Hz & H).
    injection H as <-. now simpl.
  - intros (Hs & Hp & Hz). rewrite Hrow.
    + rewrite Hs, Hp, Hz. simpl. now destruct o.
    + exact (parseSide_Ok _ _ Hs).
    + exact (proj1 (parseDouble_Ok _ _ _ Hp)).
    + exact (proj1 (parseDouble_Ok _ _ _ Hz)).
Qed.

(** X6: the row parser returns an order exactly when the trimmed first
    field is a side and the trimmed second and third fields are accepted
    numbers; the order holds these three values, its price and size are
    positive, and the line number plays no part in it. *)
Theorem parseRow_success (line : string) (lineNumber : Z) (o : Order) :
  (parseRow line lineNumber = Ok o <->
   parseSide (trim (field 0 line)) = Ok (side o) /\
   parseDouble (trim (field 1 line)) "price" = Ok (price o) /\
   parseDouble (trim (field 2 line)) "size" = Ok (size o)) /\
  (parseRow line lineNumber = Ok o ->
   0 < price o /\ 0 < size o /\
   forall n, parseRow line n = Ok o).
Proof.
  split; [apply parseRow_Ok_iff|].
  intros H. pose proof (parseRow_valid _ _ _ H) as [Hp Hz].
  repeat split; try assumption.
  intros n. apply parseRow_Ok_iff. now apply parseRow_Ok_iff in H.
Qed.

Lemma parseRow_success_witness :
  0 < price (mkOrder ASK (3 # 2) 7) /\ 0 < size (mkOrder ASK (3 # 2) 7) /\
  forall n, parseRow " Ask ,1.5, 7" n = Ok (mkOrder ASK (3 # 2) 7).
Proof.
  apply (proj2 (parseRow_success " Ask ,1.5, 7" 2%Z (mkOrder ASK (3 # 2) 7))).
  reflexivity.
Defined.

Lemma getlines_length (delim : ascii) (s : string) :
  (List.length (getlines delim s) <= S (count_char delim s))%nat.
Proof.
  induction s as [|c r IH]; simpl; [lia|].
  destruct (Ascii.eqb c delim); simpl.
  - lia.
  - destruct (getlines delim r); simpl in *; lia.
Qed.

(** X7: a line with fewer than two commas has no third field and fails
    with MalformedRow, whatever its text is. *)
Theorem parseRow_missing_field (line : string) (lineNumber : Z) :
  (count_char "," line < 2)%nat ->
  parseRow line lineNumber = Throw (MalformedRow lineNumber).
Proof.
  intros H. apply parseRow_cases. right. right.
  unfold field. rewrite nth_overflow; [reflexivity|].
  pose proof (getlines_length "," line). lia.
Qed.

Lemma parseRow_missing_field_witness :
  parseRow "bid,100.0" 6 = Throw (MalformedRow 6).
Proof.
  apply (parseRow_missing_field "bid,100.0" 6%Z). vm_compute. lia.
Defined.

(** ** [loadCSV]: the lines of the file *)

Lemma getlines_unlines (ls : list string) :
  Forall (fun l => contains newline l = false) ls ->
  getlines newline (unlines ls) = ls.
Proof.
  induction 1 as [|l r Hl _ IH]; simpl; [reflexivity|].
  now rewrite getlines_field, IH.
Qed.

(** The loop, with the rows given by what the row parser makes of them:
    it returns a book exactly when every non-blank line parses, and the
    book then holds the parsed orders in the order of the lines. *)
Lemma read_rows_Ok_iff (lines : list string) : forall n book book',
  read_rows lines n book = Ok book' <->
  exists orders,
    Forall2 (fun l o => forall m, parseRow l m = Ok o)
            (filter (fun l => negb (empty (trim l))) lines) orders /\
    book' = mkOrderbook (bids book ++ filter is_bid orders)
                        (asks book ++ filter is_ask orders).
Proof.
  induction lines as [|line rest IH]; intros n book book'; simpl.
  - split.
    + intros H. injection H as <-. exists []. split; [constructor|].
      simpl. rewrite !app_nil_r. now destruct book.
    + intros (orders & HF & ->). inversion HF; subst. simpl.
      rewrite !app_nil_r. now destruct book.
  - destruct (empty (trim line)) eqn:Eblank; simpl.
    + apply IH.
    + split.
      * intros H. apply bind_Ok in H. destruct H as (order & Hrow & H).
        apply IH in H. destruct H as (orders & HF & ->).
        exists (order :: orders). split.
        -- constructor; [|exact HF]. intros m.
           apply parseRow_Ok_iff. now apply parseRow_Ok_iff in Hrow.
        -- unfold push_order, is_ask, is_bid. simpl.
           destruct (side order); simpl; now rewrite <- ?app_assoc.
      * intros (orders & HF & ->). inversion HF as [|? o ? os Ho HF']; subst.
        rewrite Ho. simpl. apply IH. exists os. split; [exact HF'|].
        unfold push_order, is_ask, is_bid. simpl.
        destruct (side o); simpl; now rewrite <- ?app_assoc.
Qed.

Lemma parseRow_Throw (line : string) (lineNumber : Z) (e : error) :
  parseRow line lineNumber = Throw e ->
  (e = MalformedRow lineNumber /\
   (trim (field 0 line) = "" \/ trim (field 1 line) = ""
    \/ trim (field 2 line) = "")) \/
  e = InvalidSide (trim (field 0 line)) \/
  e = InvalidNumber "price" (trim (field 1 line)) \/
  e = InvalidNumber "size" (trim (field 2 line)).
Proof.
  unfold parseRow.
  destruct (empty (trim (field 0 line))) eqn:E0;
    [|destruct (empty (trim (field 1 line))) eqn:E1;
      [|destruct (empty (trim (field 2 line))) eqn:E2]]; simpl.
  - apply empty_true in E0. intros H. injection H as <-. auto.
  - apply empty_true in E1. intros H. injection H as <-. auto.
  - apply empty_true in E2. intros H. injection H as <-. auto 6.
  - destruct (parseSide_cases (trim (field 0 line))) as [(s & ->)| ->]; simpl.
    + destruct (parseDouble_cases (trim (field 1 line)) "price")
        as [(p & ->)| ->]; simpl.
      * destruct (parseDouble_cases (trim (field 2 line)) "size")
          as [(z & ->)| ->]; simpl; [discriminate|].
        intros H. injection H as <-. auto.
      * intros H. injection H as <-. auto.
    + intros H. injection H as <-. auto.
Qed.

Lemma parseRow_defined (line : string) (lineNumber : Z) :
  parseRow line lineNumber <> Undefined.
Proof.
  unfold parseRow.
  destruct (empty (trim (field 0 line)) || empty (trim (field 1 line))
            || empty (trim (field 2 line))); [discriminate|].
  destruct (parseSide_cases (trim (field 0 line))) as [(s & ->)| ->];
    [|discriminate]. simpl.
  destruct (parseDouble_cases (trim (field 1 line)) "price")
    as [(p & ->)| ->]; [|discriminate]. simpl.
  destruct (parseDouble_cases (trim (field 2 line)) "size")
    as [(z & ->)| ->]; discriminate.
Qed.

(** Where the loop throws: at the first non-blank line that the row parser
    rejects, with that line's exception. *)
Lemma read_rows_Throw (lines : list string) : forall n book e,
  read_rows lines n book = Throw e <->
  exists pre bad post,
    lines = pre ++ bad :: post /\
    (exists book', read_rows pre n book = Ok book') /\
    trim bad <> "" /\
    parseRow bad (n + Z.of_nat (List.length pre) + 1) = Throw e.
Proof.
  induction lines as [|line rest IH]; intros n book e; simpl.
  - split; [discriminate|].
    intros (pre & bad & post & H & _). now destruct pre.
  - destruct (empty (trim line)) eqn:Eblank; simpl.
    + rewrite IH. split.
      * intros (pre & bad & post & -> & (b & Hpre) & Hbad & Hrow).
        exists (line :: pre), bad, post. simpl. rewrite Eblank.
        repeat split; try assumption; [now exists b|].
        rewrite <- Hrow. f_equal. lia.
      * intros (pre & bad & post & Hl & (b & Hpre) & Hbad & Hrow).
        destruct pre as [|l pre]; simpl in Hl; injection Hl as <- ->.
        -- apply empty_true in Eblank. contradiction.
        -- simpl in Hpre. rewrite Eblank in Hpre.
           exists pre, bad, post. repeat split; try assumption;
             [now exists b|].
           rewrite <- Hrow. f_equal. simpl List.length. lia.
    + destruct (parseRow line (n + 1)) as [o|e'|] eqn:Erow; simpl.
      * rewrite IH. split.
        -- intros (pre & bad & post & -> & (b & Hpre) & Hbad & Hrow).
           exists (line :: pre), bad, post. simpl. rewrite Eblank, Erow.
           simpl. repeat split; try assumption; [now exists b|].
           rewrite <- Hrow. f_equal. lia.
        -- intros (pre & bad & post & Hl & (b & Hpre) & Hbad & Hrow).
           destruct pre as [|l pre]; simpl in Hl; injection Hl as <- ->.
           ++ simpl in Hrow. replace (n + 0 + 1)%Z with (n + 1)%Z in Hrow
                by lia. congruence.
           ++ simpl in Hpre. rewrite Eblank, Erow in Hpre. simpl in Hpre.
              exists pre, bad, post. repeat split; try assumption;
                [now exists b|].
              rewrite <- Hrow. f_equal. simpl List.length. lia.
      * split.
        -- intros H. injection H as <-. exists [], line, rest. simpl.
           repeat split; [now exists book|now apply empty_false|].
           rewrite <- Erow. f_equal. lia.
        -- intros (pre & bad & post & Hl & (b & Hpre) & Hbad & Hrow).
           destruct pre as [|l pre]; simpl in Hl; injection Hl as <- ->.
           ++ simpl in Hrow. replace (n + 0 + 1)%Z with (n + 1)%Z in Hrow
                by lia. congruence.
           ++ simpl in Hpre. rewrite Eblank, Erow in Hpre. discriminate.
      * exfalso. exact (parseRow_defined _ _ Erow).
Qed.

Lemma read_rows_defined (lines : list string) : forall n book,
  read_rows lines n book <> Undefined.
Proof.
  induction lines as [|line rest IH]; intros n book; simpl; [discriminate|].
  destruct (empty (trim line)); [apply IH|].
  destruct (parseRow line (n + 1)) as [o|e|] eqn:E; simpl.
  - apply IH.
  - discriminate.
  - exfalso. exact (parseRow_defined _ _ E).
Qed.

(** ** [loadCSV]: the sorted book *)

Lemma sorted_desc_Forall (sort : StdSort) (l : list Order) :
  StronglySorted (fun a b => price b <= price a)
                 (std_sort sort by_price_desc l).
Proof.
  pose proof (std_sort_sorted sort _ by_price_desc l by_price_desc_swo) as H.
  induction H as [|x r _ IH Hx]; constructor; [exact IH|].
  revert Hx. apply Forall_impl. unfold by_price_desc. intros a Ha. now qprop.
Qed.

Lemma sorted_asc_Forall (sort : StdSort) (l : list Order) :
  StronglySorted (fun a b => price a <= price b)
                 (std_sort sort by_price_asc l).
Proof.
  pose proof (std_sort_sorted sort _ by_price_asc l by_price_asc_swo) as H.
  induction H as [|x r _ IH Hx]; constructor; [exact IH|].
  revert Hx. apply Forall_impl. unfold by_price_asc. intros a Ha. now qprop.
Qed.

Lemma loaded_heads_extreme sort fs filename book :
  loadCSV sort fs filename = Ok book ->
  exists b0 a0,
    hd_error (bids book) = Some b0 /\ hd_error (asks book) = Some a0 /\
    Forall (fun b => price b <= price b0) (bids book) /\
    Forall (fun a => price a0 <= price a) (asks book) /\
    price b0 < price a0.
Proof.
  intros H.
  destruct (loadCSV_Ok _ _ _ _ H)
    as (content & raw & b0 & bs & a0 & ass & _ & _ & Hb & Ha & Eb & Ea & Hlt).
  exists b0, a0. rewrite Eb, Ea. repeat split; try assumption.
  - pose proof (sorted_desc_Forall sort (bids raw)) as S.
    rewrite <- Hb, Eb in S. inversion S; subst.
    constructor; [lra|assumption].
  - pose proof (sorted_asc_Forall sort (asks raw)) as S.
    rewrite <- Ha, Ea in S. inversion S; subst.
    constructor; [lra|assumption].
Qed.

(** X8: in a loaded book the first bid has the highest bid price and the
    first ask the lowest ask price, and every bid is priced strictly below
    every ask. *)
Theorem loaded_book_separated (sort : StdSort) (fs : filesystem)
    (filename : string) (book : Orderbook) :
  loadCSV sort fs filename = Ok book ->
  exists b0 a0,
    hd_error (bids book) = Some b0 /\ hd_error (asks book) = Some a0 /\
    (forall b, In b (bids book) -> price b <= price b0) /\
    (forall a, In a (asks book) -> price a0 <= price a) /\
    (forall b a, In b (bids book) -> In a (asks book) -> price b < price a).
Proof.
  intros H.
  destruct (loaded_heads_extreme _ _ _ _ H)
    as (b0 & a0 & Hb & Ha & Fb & Fa & Hlt).
  rewrite Forall_forall in Fb, Fa.
  exists b0, a0. repeat split; try assumption.
  intros b a Hinb Hina.
  specialize (Fb b Hinb). specialize (Fa a Hina). lra.
Qed.

Lemma loaded_book_separated_witness :
  exists b0 a0,
    hd_error (bids sample_book) = Some b0 /\
    hd_error (asks sample_book) = Some a0 /\
    (forall b, In b (bids sample_book) -> price b <= price b0) /\
    (forall a, In a (asks sample_book) -> price a0 <= price a) /\
    (forall b a, In b (bids sample_book) -> In a (asks sample_book) ->
                 price b < price a).
Proof.
  exact (loaded_book_separated insertion_StdSort sample_fs "orderbook.csv"
           sample_book sample_loads).
Defined.

(** The orders of the file, as the row parser returns them for the
    non-blank lines after the header. *)
Lemma read_book_Ok_iff (content : string) (raw : Orderbook) :
  read_book content = Ok raw <->
  exists orders,
    Forall2 (fun l o => forall m, parseRow l m = Ok o)
            (filter (fun l => negb (empty (trim l)))
                    (tl (getlines newline content))) orders /\
    raw = mkOrderbook (filter is_bid orders) (filter is_ask orders).
Proof. unfold read_book. apply read_rows_Ok_iff. Qed.

Lemma in_filter_bid (o : Order) (orders : list Order) :
  In o (filter is_bid orders) <-> In o orders /\ side o = BID.
Proof.
  rewrite filter_In. unfold is_bid.
  destruct (side o); intuition discriminate.
Qed.

Lemma in_filter_ask (o : Order) (orders : list Order) :
  In o (filter is_ask orders) <-> In o orders /\ side o = ASK.
Proof.
  rewrite filter_In. unfold is_ask, is_bid.
  destruct (side o); simpl; intuition discriminate.
Qed.

(** X9: [loadCSV] returns a book exactly when the file opens, every
    non-blank line after the header parses, there is a bid and there is an
    ask among the parsed orders, and every bid is priced strictly below
    every ask. *)
Theorem loadCSV_success_iff (sort : StdSort) (fs : filesystem)
    (filename : string) :
  (exists book, loadCSV sort fs filename = Ok book) <->
  exists content orders,
    fs filename = Some content /\
    Forall2 (fun l o => forall m, parseRow l m = Ok o)
            (filter (fun l => negb (empty (trim l)))
                    (tl (getlines newline content))) orders /\
    (exists b, In b orders /\ side b = BID) /\
    (exists a, In a orders /\ side a = ASK) /\
    (forall b a, In b orders -> In a orders ->
                 side b = BID -> side a = ASK -> price b < price a).
Proof.
  split.
  - intros (book & H).
    destruct (loaded_heads_extreme _ _ _ _ H)
      as (b0 & a0 & Hhb & Hha & Fb & Fa & Hlt).
    destruct (loadCSV_Ok _ _ _ _ H)
      as (content & raw & _ & _ & _ & _ & Hfs & Hraw & Hb & Ha & _).
    apply read_book_Ok_iff in Hraw. destruct Hraw as (orders & HF & ->).
    simpl in Hb, Ha.
    pose proof (std_sort_perm sort _ by_price_desc (filter is_bid orders)
                  by_price_desc_swo) as Pb.
    pose proof (std_sort_perm sort _ by_price_asc (filter is_ask orders)
                  by_price_asc_swo) as Pa.
    rewrite <- Hb in Pb. rewrite <- Ha in Pa.
    rewrite Forall_forall in Fb, Fa.
    exists content, orders. repeat split; try assumption.
    + exists b0. apply in_filter_bid.
      apply (Permutation_in _ (Permutation_sym Pb)).
      destruct (bids book); [discriminate|]. injection Hhb as ->. now left.
    + exists a0. apply in_filter_ask.
      apply (Permutation_in _ (Permutation_sym Pa)).
      destruct (asks book); [discriminate|]. injection Hha as ->. now left.
    + intros b a Hb' Ha' Sb Sa.
      assert (Ib : In b (bids book))
        by (apply (Permutation_in _ Pb); now apply in_filter_bid).
      assert (Ia : In a (asks book))
        by (apply (Permutation_in _ Pa); now apply in_filter_ask).
      specialize (Fb b Ib). specialize (Fa a Ia). lra.
  - intros (content & orders & Hfs & HF & (b & Hb & Sb) & (a & Ha & Sa) & Hsep).
    unfold loadCSV. rewrite Hfs.
    assert (Hraw : read_book content
                   = Ok (mkOrderbook (filter is_bid orders)
                                     (filter is_ask orders))).
    { apply read_book_Ok_iff. now exists orders. }
    rewrite Hraw. simpl.
    assert (Ib : In b (filter is_bid orders)) by now apply in_filter_bid.
    assert (Ia : In a (filter is_ask orders)) by now apply in_filter_ask.
    pose proof (std_sort_perm sort _ by_price_desc (filter is_bid orders)
                  by_price_desc_swo) as Pb.
    pose proof (std_sort_perm sort _ by_price_asc (filter is_ask orders)
                  by_price_asc_swo) as Pa.
    destruct (filter is_bid orders) as [|fb fbs] eqn:Eb; [contradiction|].
    destruct (filter is_ask orders) as [|fa fas] eqn:Ea; [contradiction|].
    destruct (std_sort sort by_price_desc (fb :: fbs)) as [|b0 bs] eqn:Esb.
    { apply Permutation_sym, Permutation_nil in Pb. discriminate. }
    destruct (std_sort sort by_price_asc (fa :: fas)) as [|a0 ass] eqn:Esa.
    { apply Permutation_sym, Permutation_nil in Pa. discriminate. }
    assert (Hb0 : In b0 (filter is_bid orders)).
    { rewrite Eb. apply (Permutation_in _ (Permutation_sym Pb)). now left. }
    assert (Ha0 : In a0 (filter is_ask orders)).
    { rewrite Ea. apply (Permutation_in _ (Permutation_sym Pa)). now left. }
    apply in_filter_bid in Hb0. apply in_filter_ask in Ha0.
    assert (Hlt : price b0 < price a0) by (apply Hsep; tauto).
    apply Qle_bool_gt in Hlt. rewrite Hlt. eexists. reflexivity.
Qed.

Lemma loadCSV_success_iff_witness :
  exists content orders,
    sample_fs "orderbook.csv" = Some content /\
    Forall2 (fun l o => forall m, parseRow l m = Ok o)
            (filter (fun l => negb (empty (trim l)))
                    (tl (getlines newline content))) orders /\
    (exists b, In b orders /\ side b = BID) /\
    (exists a, In a orders /\ side a = ASK) /\
    (forall b a, In b orders -> In a orders ->
                 side b = BID -> side a = ASK -> price b < price a).
Proof.
  apply (proj1 (loadCSV_success_iff insertion_StdSort sample_fs
                  "orderbook.csv")).
  exists sample_book. exact sample_loads.
Defined.

(** ** [loadCSV]: header, blank lines and errors *)

Lemma loadCSV_of_read_book (sort : StdSort) (fs fs' : filesystem)
    (filename filename' : string) (content content' : string) :
  fs filename = Some content -> fs' filename' = Some content' ->
  read_book content = read_book content' ->
  loadCSV sort fs filename = loadCSV sort fs' filename'.
Proof.
  intros H H' E. unfold loadCSV. now rewrite H, H', E.
Qed.

(** X10: the first line is never looked at: two files that differ in their
    first line only load to the same result, be it a book or an error. *)
Theorem loadCSV_header_ignored (sort : StdSort) (fs fs' : filesystem)
    (filename : string) (header header' body : string) :
  contains newline header = false -> contains newline header' = false ->
  fs filename = Some (header ++ String newline body)%string ->
  fs' filename = Some (header' ++ String newline body)%string ->
  loadCSV sort fs filename = loadCSV sort fs' filename.
Proof.
  intros Hh Hh' Hfs Hfs'.
  apply (loadCSV_of_read_book sort fs fs' filename filename _ _ Hfs Hfs').
  unfold read_book. now rewrite !getlines_field.
Qed.

Lemma loadCSV_header_ignored_witness :
  loadCSV insertion_StdSort sample_fs "orderbook.csv"
  = loadCSV insertion_StdSort
      (fun _ => Some (unlines [",,"; "bid,99.0,5"; "ask,102.0,10"; "";
                               "ASK, 101.0 ,8"; "bid,100.0,10"]))
      "orderbook.csv".
Proof.
  apply (loadCSV_header_ignored insertion_StdSort sample_fs _ "orderbook.csv"
           "side,price,size" ",,"
           (unlines ["bid,99.0,5"; "ask,102.0,10"; "";
                     "ASK, 101.0 ,8"; "bid,100.0,10"]));
    reflexivity.
Defined.

Lemma filter_nonblank_idem (lines : list string) :
  filter (fun l => negb (empty (trim l)))
         (filter (fun l => negb (empty (trim l))) lines)
  = filter (fun l => negb (empty (trim l))) lines.
Proof.
  induction lines as [|l r IH]; simpl; [reflexivity|].
  destruct (negb (empty (trim l))) eqn:E; simpl; [|exact IH].
  now rewrite E, IH.
Qed.

Lemma Forall_no_newline_filter (f : string -> bool) (ls : list string) :
  Forall (fun l => contains newline l = false) ls ->
  Forall (fun l => contains newline l = false) (filter f ls).
Proof. apply Forall_filter. Qed.

(** X11: blank lines carry no data: a file loads to a book exactly when
    the file without its blank lines does, and to the same book. *)
Theorem loadCSV_blank_lines_ignored (sort : StdSort) (fs fs' : filesystem)
    (filename header : string) (rows : list string) (book : Orderbook) :
  Forall (fun l => contains newline l = false) (header :: rows) ->
  fs filename = Some (unlines (header :: rows)) ->
  fs' filename
    = Some (unlines (header
                     :: filter (fun l => negb (empty (trim l))) rows)) ->
  (loadCSV sort fs filename = Ok book <->
   loadCSV sort fs' filename = Ok book).
Proof.
  intros Hnl Hfs Hfs'.
  assert (E : forall raw,
    read_book (unlines (header :: rows)) = Ok raw <->
    read_book (unlines (header
                        :: filter (fun l => negb (empty (trim l))) rows))
      = Ok raw).
  { intros raw. rewrite !read_book_Ok_iff.
    rewrite !getlines_unlines; [|constructor|assumption].
    - simpl. now rewrite filter_nonblank_idem.
    - now inversion Hnl.
    - apply Forall_no_newline_filter. now inversion Hnl. }
  unfold loadCSV. rewrite Hfs, Hfs'.
  destruct (read_book (unlines (header :: rows))) as [raw| |] eqn:E1;
    destruct (read_book
                (unlines (header
                          :: filter (fun l => negb (empty (trim l))) rows)))
      as [raw'| |] eqn:E2; simpl; try (split; discriminate).
  - assert (raw' = raw).
    { pose proof (proj1 (E raw) eq_refl) as H. congruence. }
    subst raw'. reflexivity.
  - pose proof (proj1 (E raw) eq_refl). discriminate.
  - pose proof (proj1 (E raw) eq_refl). discriminate.
  - pose proof (proj2 (E raw') eq_refl). discriminate.
  - pose proof (proj2 (E raw') eq_refl). discriminate.
Qed.

Lemma loadCSV_blank_lines_ignored_witness :
  loadCSV insertion_StdSort compact_fs "orderbook.csv" = Ok sample_book.
Proof.
  apply (loadCSV_blank_lines_ignored insertion_StdSort sample_fs compact_fs
           "orderbook.csv" "side,price,size"
           ["bid,99.0,5"; "ask,102.0,10"; ""; "ASK, 101.0 ,8"; "bid,100.0,10"]
           sample_book).
  - repeat constructor.
  - reflexivity.
  - reflexivity.
  - exact sample_loads.
Defined.

Lemma loadCSV_Throw_cases (sort : StdSort) (fs : filesystem)
    (filename : string) (e : error) :
  loadCSV sort fs filename = Throw e ->
  (fs filename = None /\ e = FileOpenError filename) \/
  (exists content, fs filename = Some content /\
                   read_book content = Throw e) \/
  (exists content raw, fs filename = Some content /\
     read_book content = Ok raw /\
     (e = EmptySide BID \/ e = EmptySide ASK \/
      exists b0 a0, e = CrossedBook (price b0) (price a0))).
Proof.
  unfold loadCSV. destruct (fs filename) as [content|].
  - destruct (read_book content) as [raw|e'|] eqn:Eraw; simpl.
    + intros H. right. right. exists content, raw.
      split; [reflexivity|]. split; [exact Eraw|].
      destruct (bids raw) as [|rb rbs]; [injection H as <-; auto|].
      destruct (asks raw) as [|ra ras]; [injection H as <-; auto|].
      destruct (std_sort sort by_price_desc (rb :: rbs)) as [|b0 bs];
        [discriminate|].
      destruct (std_sort sort by_price_asc (ra :: ras)) as [|a0 ass];
        [discriminate|].
      destruct (Qle_bool (price a0) (price b0)); [|discriminate].
      injection H as <-. right. right. now exists b0, a0.
    + intros H. injection H as <-. right. left. now exists content.
    + discriminate.
  - intros H. injection H as <-. now left.
Qed.

(** X12: the number in a MalformedRow error is the 1-based number of the
    offending line in the file, the header and the blank lines counted:
    that line exists, is not blank, is not the header, and has an empty
    field among its first three. *)
Theorem loadCSV_malformed_line_number (sort : StdSort) (fs : filesystem)
    (filename : string) (n : Z) :
  loadCSV sort fs filename = Throw (MalformedRow n) ->
  exists content line,
    fs filename = Some content /\ (2 <= n)%Z /\
    nth_error (getlines newline content) (Z.to_nat (n - 1)) = Some line /\
    trim line <> "" /\
    (trim (field 0 line) = "" \/ trim (field 1 line) = ""
     \/ trim (field 2 line) = "").
Proof.
  intros H. apply loadCSV_Throw_cases in H.
  destruct H as [[_ H]|[(content & Hfs & H)|(c & r & _ & _ & H)]].
  - discriminate.
  - unfold read_book in H. apply read_rows_Throw in H.
    destruct H as (pre & bad & post & Hl & _ & Hbad & Hrow).
    apply parseRow_Throw in Hrow.
    destruct Hrow as [[Hn Hempty]|[Hn|[Hn|Hn]]]; try discriminate.
    assert (En : n = (Z.of_nat (List.length pre) + 2)%Z)
      by (assert (n = (1 + Z.of_nat (List.length pre) + 1)%Z)
            by congruence; lia).
    exists content, bad. repeat split; try assumption; [lia|].
    destruct (getlines newline content) as [|h ls]; simpl in Hl.
    + now destruct pre.
    + subst ls.
      replace (Z.to_nat (n - 1)) with (S (List.length pre)) by lia.
      simpl. rewrite nth_error_app2 by lia.
      now rewrite Nat.sub_diag.
  - destruct H as [H|[H|(b0 & a0 & H)]]; discriminate.
Qed.

Lemma loadCSV_malformed_line_number_witness :
  exists content line,
    (fun _ : string => Some gapped_file) "orderbook.csv" = Some content /\
    (2 <= 4)%Z /\
    nth_error (getlines newline content) (Z.to_nat (4 - 1)) = Some line /\
    trim line <> "" /\
    (trim (field 0 line) = "" \/ trim (field 1 line) = ""
     \/ trim (field 2 line) = "").
Proof.
  apply (loadCSV_malformed_line_number insertion_StdSort
           (fun _ => Some gapped_file) "orderbook.csv" 4%Z).
  vm_compute. reflexivity.
Defined.

Lemma read_rows_parsing (lines : list string) :
  Forall (fun l => trim l = "" \/ exists o, forall m, parseRow l m = Ok o)
         lines ->
  forall n book, exists book', read_rows lines n book = Ok book'.
Proof.
  induction 1 as [|l r Hl _ IH]; intros n book; simpl.
  - now exists book.
  - destruct (empty (trim l)) eqn:E; [apply IH|].
    destruct Hl as [Hl|(o & Ho)].
    + apply empty_false in E. contradiction.
    + rewrite Ho. simpl. apply IH.
Qed.

(** X13: loading stops at the first line that the row parser rejects and
    throws that line's exception: the lines after it are not read, so
    their errors do not show. *)
Theorem loadCSV_first_error (sort : StdSort) (fs : filesystem)
    (filename header bad : string) (pre post : list string) (e : error) :
  Forall (fun l => contains newline l = false)
         (header :: pre ++ bad :: post) ->
  fs filename = Some (unlines (header :: pre ++ bad :: post)) ->
  Forall (fun l => trim l = "" \/ exists o, forall m, parseRow l m = Ok o)
         pre ->
  trim bad <> "" ->
  parseRow bad (Z.of_nat (List.length pre) + 2) = Throw e ->
  loadCSV sort fs filename = Throw e.
Proof.
  intros Hnl Hfs Hpre Hbad Hrow.
  unfold loadCSV, read_book. rewrite Hfs, (getlines_unlines _ Hnl).
  cbn [tl].
  assert (H : read_rows (pre ++ bad :: post) 1 (mkOrderbook [] []) = Throw e).
  { apply read_rows_Throw. exists pre, bad, post.
    repeat split; try assumption.
    - apply read_rows_parsing. exact Hpre.
    - rewrite <- Hrow. f_equal. lia. }
  now rewrite H.
Qed.

Lemma loadCSV_first_error_witness :
  loadCSV insertion_StdSort (fun _ => Some gapped_file) "orderbook.csv"
  = Throw (MalformedRow 4).
Proof.
  apply (loadCSV_first_error insertion_StdSort (fun _ => Some gapped_file)
           "orderbook.csv" "side,price,size" "ask,,10"
           ["bid,99.0,5"; ""] ["oops"] (MalformedRow 4)).
  - repeat constructor.
  - reflexivity.
  - constructor; [right; eexists; intros m; reflexivity|].
    constructor; [left; reflexivity|constructor].
  - vm_compute. discriminate.
  - reflexivity.
Defined.

Lemma filter_bid_nil (orders : list Order) :
  (forall o, In o orders -> side o = ASK) -> filter is_bid orders = [].
Proof.
  intros H. induction orders as [|o r IH]; simpl; [reflexivity|].
  unfold is_bid at 1. rewrite (H o (or_introl eq_refl)).
  apply IH. intros o' Ho'. apply H. now right.
Qed.

Lemma filter_ask_nil (orders : list Order) :
  (forall o, In o orders -> side o = BID) -> filter is_ask orders = [].
Proof.
  intros H. induction orders as [|o r IH]; simpl; [reflexivity|].
  unfold is_ask at 1, is_bid. rewrite (H o (or_introl eq_refl)). simpl.
  apply IH. intros o' Ho'. apply H. now right.
Qed.

(** X14: when every row parses, a file without a bid row fails with
    EmptySide for the bids, also when it has no ask row either or no row
    at all; a file with bid rows and no ask row fails with EmptySide for
    the asks. *)
Theorem loadCSV_empty_side (sort : StdSort) (fs : filesystem)
    (filename content : string) (orders : list Order) :
  fs filename = Some content ->
  Forall2 (fun l o => forall m, parseRow l m = Ok o)
          (filter (fun l => negb (empty (trim l)))
                  (tl (getlines newline content))) orders ->
  ((forall o, In o orders -> side o = ASK) ->
   loadCSV sort fs filename = Throw (EmptySide BID)) /\
  ((exists b, In b orders) -> (forall o, In o orders -> side o = BID) ->
   loadCSV sort fs filename = Throw (EmptySide ASK)).
Proof.
  intros Hfs HF.
  assert (Hraw : read_book content
                 = Ok (mkOrderbook (filter is_bid orders)
                                   (filter is_ask orders))).
  { apply read_book_Ok_iff. now exists orders. }
  unfold loadCSV. rewrite Hfs, Hraw. simpl. split.
  - intros H. now rewrite (filter_bid_nil orders H).
  - intros (b & Hb) H. rewrite (filter_ask_nil orders H).
    assert (Ib : In b (filter is_bid orders))
      by (apply in_filter_bid; auto).
    now destruct (filter is_bid orders).
Qed.

Lemma loadCSV_empty_side_witness :
  loadCSV insertion_StdSort (fun _ => Some "") "orderbook.csv"
  = Throw (EmptySide BID).
Proof.
  apply (loadCSV_empty_side insertion_StdSort (fun _ => Some "")
           "orderbook.csv" "" []).
  - reflexivity.
  - constructor.
  - intros o [].
Defined.

(** X15: when every row parses and there are bids and asks, but some bid
    is priced at or above some ask, loading fails with CrossedBook, and the
    two prices in the error are the highest bid price and the lowest ask
    price of the file. *)
Theorem loadCSV_crossed_prices (sort : StdSort) (fs : filesystem)
    (filename content : string) (orders : list Order) (b a : Order) :
  fs filename = Some content ->
  Forall2 (fun l o => forall m, parseRow l m = Ok o)
          (filter (fun l => negb (empty (trim l)))
                  (tl (getlines newline content))) orders ->
  In b orders -> side b = BID -> In a orders -> side a = ASK ->
  price a <= price b ->
  exists b0 a0,
    In b0 orders /\ side b0 = BID /\ In a0 orders /\ side a0 = ASK /\
    (forall o, In o orders -> side o = BID -> price o <= price b0) /\
    (forall o, In o orders -> side o = ASK -> price a0 <= price o) /\
    loadCSV sort fs filename = Throw (CrossedBook (price b0) (price a0)).
Proof.
  intros Hfs HF Hb Sb Ha Sa Hcross.
  assert (Hraw : read_book content
                 = Ok (mkOrderbook (filter is_bid orders)
                                   (filter is_ask orders))).
  { apply read_book_Ok_iff. now exists orders. }
  pose proof (std_sort_perm sort _ by_price_desc (filter is_bid orders)
                by_price_desc_swo) as Pb.
  pose proof (std_sort_perm sort _ by_price_asc (filter is_ask orders)
                by_price_asc_swo) as Pa.
  pose proof (sorted_desc_Forall sort (filter is_bid orders)) as Sbs.
  pose proof (sorted_asc_Forall sort (filter is_ask orders)) as Sas.
  assert (Ib : In b (std_sort sort by_price_desc (filter is_bid orders)))
    by (apply (Permutation_in _ Pb), in_filter_bid; auto).
  assert (Ia : In a (std_sort sort by_price_asc (filter is_ask orders)))
    by (apply (Permutation_in _ Pa), in_filter_ask; auto).
  destruct (std_sort sort by_price_desc (filter is_bid orders))
    as [|b0 bs] eqn:Esb; [contradiction|].
  destruct (std_sort sort by_price_asc (filter is_ask orders))
    as [|a0 ass] eqn:Esa; [contradiction|].
  inversion Sbs as [|? ? _ Fb]; subst. inversion Sas as [|? ? _ Fa]; subst.
  rewrite Forall_forall in Fb, Fa.
  assert (Mb : forall o, In o (b0 :: bs) -> price o <= price b0).
  { intros o [<-|Ho]; [lra|now apply Fb]. }
  assert (Ma : forall o, In o (a0 :: ass) -> price a0 <= price o).
  { intros o [<-|Ho]; [lra|now apply Fa]. }
  assert (Hb0 : In b0 (filter is_bid orders))
    by (apply (Permutation_in _ (Permutation_sym Pb)); now left).
  assert (Ha0 : In a0 (filter is_ask orders))
    by (apply (Permutation_in _ (Permutation_sym Pa)); now left).
  apply in_filter_bid in Hb0. apply in_filter_ask in Ha0.
  exists b0, a0. repeat split; try tauto.
  - intros o Ho So. apply Mb, (Permutation_in _ Pb), in_filter_bid. auto.
  - intros o Ho So. apply Ma, (Permutation_in _ Pa), in_filter_ask. auto.
  - apply (loadCSV_crossed sort fs filename content _ b0 a0 Hfs Hraw).
    + simpl. now rewrite Esb.
    + simpl. now rewrite Esa.
    + specialize (Mb b Ib). specialize (Ma a Ia). lra.
Qed.

Lemma loadCSV_crossed_prices_witness :
  exists b0 a0,
    In b0 [mkOrder BID 105 1; mkOrder ASK 100 1; mkOrder BID 99 2] /\
    side b0 = BID /\
    In a0 [mkOrder BID 105 1; mkOrder ASK 100 1; mkOrder BID 99 2] /\
    side a0 = ASK /\
    (forall o, In o [mkOrder BID 105 1; mkOrder ASK 100 1; mkOrder BID 99 2]
               -> side o = BID -> price o <= price b0) /\
    (forall o, In o [mkOrder BID 105 1; mkOrder ASK 100 1; mkOrder BID 99 2]
               -> side o = ASK -> price a0 <= price o) /\
    loadCSV insertion_StdSort crossed_fs "orderbook.csv"
      = Throw (CrossedBook (price b0) (price a0)).
Proof.
  apply (loadCSV_crossed_prices insertion_StdSort crossed_fs "orderbook.csv"
           crossed_file
           [mkOrder BID 105 1; mkOrder ASK 100 1; mkOrder BID 99 2]
           (mkOrder BID 105 1) (mkOrder ASK 100 1)).
  - reflexivity.
  - repeat constructor.
  - now left.
  - reflexivity.
  - right. now left.
  - reflexivity.
  - vm_compute. discriminate.
Defined.

Lemma calcVWAP_defined (sweep : Sweep) (levels : list Order)
    (targetQty : Q) :
  calcVWAP sweep levels targetQty <> Undefined.
Proof.
  unfold calcVWAP. destruct (vwap_loop levels targetQty 0) as [r t].
  destruct (Qltb 0 r); discriminate.
Qed.

Lemma loadCSV_defined (sort : StdSort) (fs : filesystem)
    (filename : string) :
  loadCSV sort fs filename <> Undefined.
Proof.
  unfold loadCSV. destruct (fs filename) as [content|]; [|discriminate].
  destruct (read_book content) as [raw| |] eqn:Eraw; simpl.
  - destruct (bids raw) as [|rb rbs]; [discriminate|].
    destruct (asks raw) as [|ra ras]; [discriminate|].
    pose proof (std_sort_perm sort _ by_price_desc (rb :: rbs)
                  by_price_desc_swo) as Pb.
    pose proof (std_sort_perm sort _ by_price_asc (ra :: ras)
                  by_price_asc_swo) as Pa.
    destruct (std_sort sort by_price_desc (rb :: rbs)) as [|b0 bs].
    { apply Permutation_sym, Permutation_nil in Pb. discriminate. }
    destruct (std_sort sort by_price_asc (ra :: ras)) as [|a0 ass].
    { apply Permutation_sym, Permutation_nil in Pa. discriminate. }
    destruct (Qle_bool (price a0) (price b0)); discriminate.
  - discriminate.
  - exfalso. exact (read_rows_defined _ _ _ Eraw).
Qed.

(** X16: neither [loadCSV] nor [calcStats] on the book it returns indexes
    an empty vector: whatever the file holds, loading ends in a book or in
    an exception, and the analysis of a loaded book ends in Stats or in an
    exception. *)
Theorem loaded_book_indexing_defined (sort : StdSort) (fs : filesystem)
    (filename : string) (depthPct targetQty : Q) :
  loadCSV sort fs filename <> Undefined /\
  (forall book, loadCSV sort fs filename = Ok book ->
                calcStats book depthPct targetQty <> Undefined).
Proof.
  split.
  - unfold loadCSV. destruct (fs filename) as [content|]; [|discriminate].
    destruct (read_book content) as [raw| |] eqn:Eraw; simpl.
    + destruct (bids raw) as [|rb rbs]; [discriminate|].
      destruct (asks raw) as [|ra ras]; [discriminate|].
      pose proof (std_sort_perm sort _ by_price_desc (rb :: rbs)
                    by_price_desc_swo) as Pb.
      pose proof (std_sort_perm sort _ by_price_asc (ra :: ras)
                    by_price_asc_swo) as Pa.
      destruct (std_sort sort by_price_desc (rb :: rbs)) as [|b0 bs].
      { apply Permutation_sym, Permutation_nil in Pb. discriminate. }
      destruct (std_sort sort by_price_asc (ra :: ras)) as [|a0 ass].
      { apply Permutation_sym, Permutation_nil in Pa. discriminate. }
      destruct (Qle_bool (price a0) (price b0)); discriminate.
    + discriminate.
    + exfalso. exact (read_rows_defined _ _ _ Eraw).
  - intros book H.
    destruct (loadCSV_Ok _ _ _ _ H)
      as (_ & _ & b0 & bs & a0 & ass & _ & _ & _ & _ & Eb & Ea & _).
    unfold calcStats, calcVWAPBuy, calcVWAPSell. rewrite Eb, Ea.
    pose proof (calcVWAP_defined Buy (a0 :: ass) targetQty) as Db.
    pose proof (calcVWAP_defined Sell (b0 :: bs) targetQty) as Ds.
    destruct (calcVWAP Buy (a0 :: ass) targetQty) as [vb|e|];
      [|discriminate|contradiction].
    destruct (calcVWAP Sell (b0 :: bs) targetQty) as [vs|e|];
      [discriminate|discriminate|contradiction].
Qed.

Lemma loaded_book_indexing_defined_witness :
  calcStats sample_book 0.5 40 <> Undefined.
Proof.
  apply (proj2 (loaded_book_indexing_defined insertion_StdSort sample_fs
                  "orderbook.csv" 0.5 40) sample_book sample_loads).
Defined.

(** ** [loadCSV]: the choice of the sort *)

Lemma stod_canonical (raw : string) (q : Q) :
  stod raw = StodOk (Finite q) -> Qred q = q.
Proof.
  unfold stod.
  match goal with
  | |- context [let '(_, _) := ?p in _] => destruct p as [neg s1]
  end.
  destruct (starts_with_ci "inf" s1); [discriminate|].
  destruct (starts_with_ci "nan" s1); [discriminate|].
  destruct (match scan_hex s1 with
            | Some v => Some v
            | None => scan_decimal s1
            end) as [v|]; [|discriminate].
  destruct (erange v); [discriminate|].
  intros H. injection H as <-. apply Qred_complete, Qred_correct.
Qed.

Lemma parseDouble_canonical (raw fieldName : string) (v : Q) :
  parseDouble raw fieldName = Ok v -> Qred v = v.
Proof.
  unfold parseDouble. destruct (stod raw) as [[q| |]| |] eqn:E;
    try discriminate.
  destruct (Qle_bool q 0); [discriminate|].
  intros H. injection H as <-. exact (stod_canonical _ _ E).
Qed.

Lemma canonical_eq (x y : Q) : Qred x = x -> Qred y = y -> x == y -> x = y.
Proof. intros Hx Hy E. rewrite <- Hx, <- Hy. now apply Qred_complete. Qed.

Lemma read_book_canonical (content : string) (raw : Orderbook) :
  read_book content = Ok raw ->
  Forall (fun o => Qred (price o) = price o) (bids raw) /\
  Forall (fun o => Qred (price o) = price o) (asks raw).
Proof.
  intros H. apply read_book_Ok_iff in H. destruct H as (orders & HF & ->).
  assert (Hc : Forall (fun o => Qred (price o) = price o) orders).
  { induction HF as [|l o ls os Ho _ IH]; constructor; [|exact IH].
    specialize (Ho 0%Z). apply parseRow_Ok_iff in Ho.
    destruct Ho as (_ & Hp & _). exact (parseDouble_canonical _ _ _ Hp). }
  simpl. split; now apply Forall_filter.
Qed.

(** Two arrangements of the same prices in the same order are the same
    list, when equal prices are identical. *)
Lemma sorted_perm_eq (le : Q -> Q -> Prop) :
  (forall a b, le a b -> le b a -> a == b) ->
  forall p1 p2,
    Forall (fun q => Qred q = q) p1 -> Permutation p1 p2 ->
    StronglySorted le p1 -> StronglySorted le p2 -> p1 = p2.
Proof.
  intros anti. induction p1 as [|x p1 IH]; intros p2 Hc P S1 S2.
  - apply Permutation_nil in P. now subst.
  - destruct p2 as [|y p2].
    { apply Permutation_sym, Permutation_nil in P. discriminate. }
    inversion Hc as [|? ? Hx Hc']; subst.
    inversion S1 as [|? ? S1' F1]; subst.
    inversion S2 as [|? ? S2' F2]; subst.
    rewrite Forall_forall in F1, F2.
    assert (Hy : Qred y = y).
    { assert (In y (x :: p1))
        by (apply (Permutation_in _ (Permutation_sym P)); now left).
      rewrite Forall_forall in Hc. now apply Hc. }
    assert (E : x = y).
    { assert (Ix : In x (y :: p2)) by (apply (Permutation_in _ P); now left).
      assert (Iy : In y (x :: p1))
        by (apply (Permutation_in _ (Permutation_sym P)); now left).
      destruct Ix as [<-|Ix]; [reflexivity|].
      destruct Iy as [<-|Iy]; [reflexivity|].
      apply canonical_eq; try assumption.
      apply anti; [now apply F1|now apply F2]. }
    subst y. f_equal. apply IH; try assumption.
    now apply Permutation_cons_inv in P.
Qed.

Lemma StronglySorted_map_price (le : Q -> Q -> Prop) (l : list Order) :
  StronglySorted (fun a b => le (price a) (price b)) l ->
  StronglySorted le (map price l).
Proof.
  induction 1 as [|x r _ IH Hx]; simpl; constructor; [exact IH|].
  rewrite Forall_forall in *. intros q Hq. apply in_map_iff in Hq.
  destruct Hq as (o & <- & Ho). now apply Hx.
Qed.

Lemma Forall_map_price (P : Q -> Prop) (l : list Order) :
  Forall (fun o => P (price o)) l -> Forall P (map price l).
Proof. induction 1; simpl; constructor; assumption. Qed.

Lemma sorted_bids_prices (sort1 sort2 : StdSort) (l : list Order) :
  Forall (fun o => Qred (price o) = price o) l ->
  map price (std_sort sort1 by_price_desc l)
  = map price (std_sort sort2 by_price_desc l).
Proof.
  intros Hc.
  pose proof (std_sort_perm sort1 _ by_price_desc l by_price_desc_swo) as P1.
  pose proof (std_sort_perm sort2 _ by_price_desc l by_price_desc_swo) as P2.
  apply (sorted_perm_eq (fun a b => b <= a)).
  - intros a b H1 H2. lra.
  - apply Forall_map_price, (Permutation_Forall P1), Hc.
  - apply Permutation_map. now rewrite <- P1, <- P2.
  - apply (StronglySorted_map_price (fun a b => b <= a)), sorted_desc_Forall.
  - apply (StronglySorted_map_price (fun a b => b <= a)), sorted_desc_Forall.
Qed.

Lemma sorted_asks_prices (sort1 sort2 : StdSort) (l : list Order) :
  Forall (fun o => Qred (price o) = price o) l ->
  map price (std_sort sort1 by_price_asc l)
  = map price (std_sort sort2 by_price_asc l).
Proof.
  intros Hc.
  pose proof (std_sort_perm sort1 _ by_price_asc l by_price_asc_swo) as P1.
  pose proof (std_sort_perm sort2 _ by_price_asc l by_price_asc_swo) as P2.
  apply (sorted_perm_eq (fun a b => a <= b)).
  - intros a b H1 H2. lra.
  - apply Forall_map_price, (Permutation_Forall P1), Hc.
  - apply Permutation_map. now rewrite <- P1, <- P2.
  - apply (StronglySorted_map_price (fun a b => a <= b)), sorted_asc_Forall.
  - apply (StronglySorted_map_price (fun a b => a <= b)), sorted_asc_Forall.
Qed.

(** X17: the outcome of loading does not depend on which sort is used, as
    long as it meets the contract of [std::sort]: two such sorts give the
    same exception, or two books with the same orders on each side and the
    same sequence of prices; only orders of equal price can change
    places. *)
Theorem loadCSV_sort_independent (sort1 sort2 : StdSort) (fs : filesystem)
    (filename : string) :
  match loadCSV sort1 fs filename, loadCSV sort2 fs filename with
  | Ok book1, Ok book2 =>
      Permutation (bids book1) (bids book2) /\
      Permutation (asks book1) (asks book2) /\
      map price (bids book1) = map price (bids book2) /\
      map price (asks book1) = map price (asks book2)
  | Throw e1, Throw e2 => e1 = e2
  | _, _ => False
  end.
Proof.
  unfold loadCSV. destruct (fs filename) as [content|]; [|reflexivity].
  destruct (read_book content) as [raw|e|] eqn:Eraw; simpl;
    [|reflexivity|exact (read_rows_defined _ _ _ Eraw)].
  destruct (read_book_canonical _ _ Eraw) as [Cb Ca].
  destruct (bids raw) as [|rb rbs] eqn:Eb; [reflexivity|].
  destruct (asks raw) as [|ra ras] eqn:Ea; [reflexivity|].
  pose proof (sorted_bids_prices sort1 sort2 _ Cb) as Mb.
  pose proof (sorted_asks_prices sort1 sort2 _ Ca) as Ma.
  pose proof (std_sort_perm sort1 _ by_price_desc (rb :: rbs)
                by_price_desc_swo) as Pb1.
  pose proof (std_sort_perm sort2 _ by_price_desc (rb :: rbs)
                by_price_desc_swo) as Pb2.
  pose proof (std_sort_perm sort1 _ by_price_asc (ra :: ras)
                by_price_asc_swo) as Pa1.
  pose proof (std_sort_perm sort2 _ by_price_asc (ra :: ras)
                by_price_asc_swo) as Pa2.
  destruct (std_sort sort1 by_price_desc (rb :: rbs)) as [|b1 bs1].
  { apply Permutation_sym, Permutation_nil in Pb1. discriminate. }
  destruct (std_sort sort2 by_price_desc (rb :: rbs)) as [|b2 bs2];
    [discriminate|].
  destruct (std_sort sort1 by_price_asc (ra :: ras)) as [|a1 as1].
  { apply Permutation_sym, Permutation_nil in Pa1. discriminate. }
  destruct (std_sort sort2 by_price_asc (ra :: ras)) as [|a2 as2];
    [discriminate|].
  simpl in Mb, Ma. injection Mb as Hb Mb. injection Ma as Ha Ma.
  rewrite <- Hb, <- Ha.
  destruct (Qle_bool (price a1) (price b1)); [reflexivity|].
  simpl. rewrite Hb, Ha, Mb, Ma. repeat split.
  - now rewrite <- Pb1, <- Pb2.
  - now rewrite <- Pa1, <- Pa2.
Qed.

(** ** [calcDepth] *)

Lemma calcDepth_total (orders : list Order) (minPrice maxPrice : Q) :
  calcDepth orders minPrice maxPrice
  == total_size (orders_in_band minPrice maxPrice orders).
Proof. unfold calcDepth. rewrite depth_loop_sum. lra. Qed.

Lemma total_size_incl_le (f : Order -> bool) (orders : list Order) :
  Forall valid_order orders ->
  0 <= total_size (filter f orders) /\
  total_size (filter f orders) <= total_size orders.
Proof.
  induction 1 as [|o r [_ Ho] _ [IH1 IH2]]; simpl; [lra|].
  destruct (f o); simpl; lra.
Qed.

(** X19: on orders of positive size the depth lies between zero and the
    total size of the orders; it is the total size when every price is in
    the band, and it is zero when the band is empty because its lower end
    is above its upper end. *)
Theorem calcDepth_bounds (orders : list Order) (minPrice maxPrice : Q) :
  Forall valid_order orders ->
  0 <= calcDepth orders minPrice maxPrice /\
  calcDepth orders minPrice maxPrice <= total_size orders /\
  ((forall o, In o orders -> minPrice <= price o /\ price o <= maxPrice) ->
   calcDepth orders minPrice maxPrice == total_size orders) /\
  (maxPrice < minPrice -> calcDepth orders minPrice maxPrice = 0).
Proof.
  intros Hvalid.
  pose proof (calcDepth_total orders minPrice maxPrice) as Ht.
  destruct (total_size_incl_le
              (fun o => if in_band_dec minPrice maxPrice o then true else false)
              orders Hvalid) as [H0 H1].
  fold (orders_in_band minPrice maxPrice orders) in H0, H1.
  split; [lra|]. split; [lra|]. split.
  - intros Hall.
    assert (E : orders_in_band minPrice maxPrice orders = orders).
    { clear Hvalid H0 H1 Ht. unfold orders_in_band.
      induction orders as [|o r IH]; simpl; [reflexivity|].
      destruct (in_band_dec minPrice maxPrice o) as [_|Hn].
      - f_equal. apply IH. intros o' Ho'. apply Hall. now right.
      - exfalso. apply Hn. apply Hall. now left. }
    rewrite E in Ht. exact Ht.
  - intros Hempty. unfold calcDepth. generalize (0 : Q) as total.
    clear Hvalid H0 H1 Ht.
    induction orders as [|o r IH]; intros total; simpl; [reflexivity|].
    destruct (Qle_bool minPrice (price o) && Qle_bool (price o) maxPrice)
      eqn:E; [|apply IH].
    apply band_test_iff in E. destruct E as [E1 E2]. lra.
Qed.

Lemma calcDepth_bounds_witness :
  calcDepth (bids sample_book) 101 99 = 0.
Proof.
  apply (calcDepth_bounds (bids sample_book) 101 99).
  - repeat constructor.
  - reflexivity.
Defined.

(** ** The sweeps *)

Lemma vwap_loop_stopped (levels : list Order) (remaining total : Q) :
  remaining <= 0 -> vwap_loop levels remaining total = (remaining, total).
Proof.
  intros H. destruct levels; simpl; [reflexivity|].
  apply Qle_bool_iff in H. now rewrite H.
Qed.

(** X23: a negative quantity is not rejected: the loop does not run, no
    exception is thrown, and the sweep returns zero, on any list of
    levels. *)
Theorem vwap_negative_quantity (sweep : Sweep) (levels : list Order)
    (targetQty : Q) :
  targetQty < 0 ->
  exists r, calcVWAP sweep levels targetQty = Ok r /\ r == 0.
Proof.
  intros Hneg. unfold calcVWAP. rewrite vwap_loop_stopped by lra.
  assert (E : Qltb 0 targetQty = false) by (qprop; lra).
  rewrite E. eexists. split; [reflexivity|]. field. lra.
Qed.

Lemma vwap_negative_quantity_witness :
  exists r, calcVWAP Buy [] (-5) = Ok r /\ r == 0.
Proof.
  apply (vwap_negative_quantity Buy [] (-5)). reflexivity.
Defined.

Lemma b64_vwap_loop_stopped (levels : list B64.Order)
    (remaining total : float) :
  (remaining <=? 0)%float = true ->
  B64.vwap_loop levels remaining total = (remaining, total).
Proof.
  intros H. destruct levels; simpl; [reflexivity|]. now rewrite H.
Qed.

Lemma b64_vwap_loop_app (l1 l2 : list B64.Order) : forall remaining total,
  B64.vwap_loop (l1 ++ l2) remaining total
  = B64.vwap_loop l2 (fst (B64.vwap_loop l1 remaining total))
                     (snd (B64.vwap_loop l1 remaining total)).
Proof.
  induction l1 as [|o r IH]; intros remaining total; simpl; [reflexivity|].
  destruct (remaining <=? 0)%float eqn:E; simpl.
  - symmetry. now apply b64_vwap_loop_stopped.
  - apply IH.
Qed.

(** X22: levels beyond the one where the quantity is filled play no part.
    In binary64, when the walk over the first levels ends with a remainder
    that is zero or less, the sweep over a longer list returns what the
    sweep over the first levels returns, whatever the further levels
    hold. *)
Theorem vwap_ignores_deeper_levels (sweep : Sweep) (l1 l2 : list B64.Order)
    (targetQty : float) :
  (fst (B64.vwap_loop l1 targetQty 0) <=? 0)%float = true ->
  B64.calcVWAP sweep (l1 ++ l2) targetQty = B64.calcVWAP sweep l1 targetQty.
Proof.
  intros Hdone. unfold B64.calcVWAP. rewrite b64_vwap_loop_app.
  destruct (B64.vwap_loop l1 targetQty 0) as [remaining total].
  simpl in Hdone. simpl. now rewrite b64_vwap_loop_stopped.
Qed.

Lemma vwap_ignores_deeper_levels_witness :
  B64.calcVWAP Buy ([B64.mkOrder ASK 51.76 40]
                    ++ [B64.mkOrder ASK 52.5 0.1; B64.mkOrder ASK 53 7.25])
                   38.5
  = B64.calcVWAP Buy [B64.mkOrder ASK 51.76 40] 38.5.
Proof.
  apply (vwap_ignores_deeper_levels Buy [B64.mkOrder ASK 51.76 40]
           [B64.mkOrder ASK 52.5 0.1; B64.mkOrder ASK 53 7.25] 38.5%float).
  reflexivity.
Defined.

(** A finite value less itself is zero, with no rounding. *)
Lemma b64_sub_diag (x : float) :
  B64.is_finite x = true -> (x - x)%float = 0%float.
Proof.
  intros F. apply Prim2SF_inj. rewrite sub_spec.
  unfold B64.is_finite in F.
  destruct (Prim2SF x) as [s|s| |s m e]; try discriminate.
  - now destruct s.
  - unfold SF64sub, SFsub. rewrite Z.min_id. unfold shl_align.
    rewrite Z.sub_diag. cbn [fst]. reflexivity.
Qed.

(** X31: a positive quantity that the first level holds is filled there,
    whatever the rounding and whatever the other levels are: in binary64
    the sweep throws nothing and returns (targetQty * price) / targetQty,
    which can differ from the price in its last digit. *)
Theorem vwap_first_level (sweep : Sweep) (level : B64.Order)
    (rest : list B64.Order) (targetQty : float) :
  B64.is_finite targetQty = true -> 0 < B64.value targetQty ->
  B64.is_finite (B64.size level) = true ->
  B64.value targetQty <= B64.value (B64.size level) ->
  B64.calcVWAP sweep (level :: rest) targetQty
  = B64.Ok ((0 + targetQty * B64.price level) / targetQty)%float.
Proof.
  intros Ft Hpos Fs Hle. unfold B64.calcVWAP. cbn [B64.vwap_loop].
  assert (E0 : (targetQty <=? 0)%float = false).
  { destruct (targetQty <=? 0)%float eqn:E; [|reflexivity].
    apply (leb_zero targetQty Ft) in E. lra. }
  assert (Em : B64.std_min targetQty (B64.size level) = targetQty).
  { unfold B64.std_min.
    destruct (B64.size level <? targetQty)%float eqn:E; [|reflexivity].
    apply (ltb_value _ _ Fs Ft) in E. lra. }
  rewrite E0, Em, (b64_sub_diag targetQty Ft).
  now rewrite b64_vwap_loop_stopped.
Qed.

Lemma vwap_first_level_witness :
  B64.calcVWAP Sell [B64.mkOrder BID 51.76 40] 40
  = B64.Ok 51.760000000000005%float.
Proof.
  rewrite (vwap_first_level Sell (B64.mkOrder BID 51.76 40) [] 40%float).
  - vm_compute. reflexivity.
  - reflexivity.
  - reflexivity.
  - reflexivity.
  - vm_compute. discriminate.
Defined.

Lemma b64_leb_zero_ltb (x : float) :
  (x <=? 0)%float = true -> (0 <? x)%float = false.
Proof.
  rewrite leb_spec, ltb_spec. change (Prim2SF 0) with (S754_zero false).
  destruct (Prim2SF x) as [s|s| |s m e]; try discriminate; try reflexivity;
    destruct s; try discriminate; reflexivity.
Qed.

(** X32: a quantity that is zero or less is not rejected: in binary64 the
    loop does not run, nothing is thrown, and the sweep returns
    0.0 / targetQty on any list of levels, which is NaN for a quantity of
    zero. *)
Theorem vwap_nonpositive_quantity (sweep : Sweep) (levels : list B64.Order) :
  (forall targetQty,
     (targetQty <=? 0)%float = true ->
     B64.calcVWAP sweep levels targetQty = B64.Ok (0 / targetQty)%float) /\
  B64.calcVWAP sweep levels 0 = B64.Ok nan /\
  B64.calcVWAP sweep levels (-0) = B64.Ok nan.
Proof.
  assert (H : forall targetQty,
            (targetQty <=? 0)%float = true ->
            B64.calcVWAP sweep levels targetQty
            = B64.Ok (0 / targetQty)%float).
  { intros targetQty Hle. unfold B64.calcVWAP.
    rewrite (b64_vwap_loop_stopped levels targetQty 0%float Hle).
    now rewrite (b64_leb_zero_ltb targetQty Hle). }
  split; [exact H|]. split; rewrite H; reflexivity.
Qed.

Lemma vwap_nonpositive_quantity_witness :
  B64.calcVWAP Buy [B64.mkOrder ASK 101 8] (-5) = B64.Ok (-0)%float.
Proof.
  rewrite (proj1 (vwap_nonpositive_quantity Buy [B64.mkOrder ASK 101 8])
             (-5)%float); reflexivity.
Defined.

(** ** [main] *)

Lemma loaded_nonempty sort fs filename book :
  loadCSV sort fs filename = Ok book -> bids book <> [] /\ asks book <> [].
Proof.
  intros H.
  destruct (loadCSV_Ok _ _ _ _ H)
    as (_ & _ & b0 & bs & a0 & ass & _ & _ & _ & _ & Eb & Ea & _).
  rewrite Eb, Ea. split; discriminate.
Qed.

(** X29: a run exits with status 0 and the report exactly when the file
    named by the first argument (orderbook.csv without one) loads and the
    two sweeps for 40 units return, the report showing what they return;
    it exits with status 1 otherwise, with the message of the first
    exception: the loader's, else the buy sweep's, else the sell sweep's.
    A loaded book has a bid and an ask, so no run indexes an empty
    vector. *)
Theorem main_exit_status (sort : StdSort) (fs : filesystem)
    (argv : list string) :
  let file := match argv with _ :: name :: _ => name | _ => "orderbook.csv" end
  in
  (exists book s,
     loadCSV sort fs file = Ok book /\
     calcVWAPBuy (asks book) 40 = Ok (vwapBuy s) /\
     calcVWAPSell (bids book) 40 = Ok (vwapSell s) /\
     calcStats book 0.5 40 = Ok s /\
     main sort fs argv = Ok (0%Z, Report s 0.5 40)) \/
  (exists e,
     main sort fs argv = Ok (1%Z, ErrorMessage e) /\
     (loadCSV sort fs file = Throw e \/
      exists book,
        loadCSV sort fs file = Ok book /\
        calcStats book 0.5 40 = Throw e /\
        (calcVWAPBuy (asks book) 40 = Throw e \/
         (exists vb, calcVWAPBuy (asks book) 40 = Ok vb) /\
         calcVWAPSell (bids book) 40 = Throw e))).
Proof.
  intros file. unfold main. fold file.
  change DEPTH_PCT with 0.5. change TARGET_QTY with 40.
  destruct (loadCSV sort fs file) as [book|e|] eqn:Hload; simpl.
  - destruct (loaded_nonempty _ _ _ _ Hload) as [Nb Na].
    pose proof (calcVWAP_defined Buy (asks book) 40) as Db.
    pose proof (calcVWAP_defined Sell (bids book) 40) as Ds.
    assert (Hs : match calcVWAP Buy (asks book) 40,
                       calcVWAP Sell (bids book) 40 with
                 | Ok vb, Ok vs =>
                     exists s, calcStats book 0.5 40 = Ok s /\
                               vwapBuy s = vb /\ vwapSell s = vs
                 | Ok _, Throw e | Throw e, _ =>
                     calcStats book 0.5 40 = Throw e
                 | _, _ => True
                 end).
    { unfold calcStats, calcVWAPBuy, calcVWAPSell.
      destruct (calcVWAP Buy (asks book) 40) as [vb|e|];
        destruct (calcVWAP Sell (bids book) 40) as [vs|e'|];
        destruct (bids book) as [|b0 bs]; try contradiction;
        destruct (asks book) as [|a0 ass]; try contradiction;
        simpl; try reflexivity; try exact I.
      eexists. repeat split. }
    unfold calcVWAPBuy, calcVWAPSell.
    destruct (calcVWAP Buy (asks book) 40) as [vb|e|] eqn:Ebuy;
      [|right|contradiction].
    + destruct (calcVWAP Sell (bids book) 40) as [vs|e|] eqn:Esell;
        [left|right|contradiction].
      * destruct Hs as (s & Hs & <- & <-). rewrite Hs.
        exists book, s. repeat split; assumption.
      * rewrite Hs. exists e. split; [reflexivity|]. right. exists book.
        split; [reflexivity|]. split; [exact Hs|]. right.
        split; [now exists vb|exact Esell].
    + rewrite Hs. exists e. split; [reflexivity|]. right. exists book.
      split; [reflexivity|]. split; [exact Hs|]. left. exact Ebuy.
  - right. exists e. auto.
  - exfalso. exact (loadCSV_defined sort fs file Hload).
Qed.

Lemma main_exit_status_witness :
  main insertion_StdSort sample_fs ["analyzer"]
  = Ok (1%Z, ErrorMessage (InsufficientLiquidity Buy 40)).
Proof.
  destruct (main_exit_status insertion_StdSort sample_fs ["analyzer"])
    as [(book & s & Hload & Ha & _)|(e & Hmain & _)].
  - exfalso. rewrite sample_loads in Hload. injection Hload as <-.
    vm_compute in Ha. discriminate.
  - rewrite Hmain. vm_compute in Hmain. congruence.
Defined.

(** ** Witnesses of the statements on the loader and on [trim] *)

(** The two sorts order the tied bids of [tied_file] differently. *)
Example tied_loads_21 :
  loadCSV insertion_StdSort tied_fs "orderbook.csv" = Ok tied_book_21.
Proof. vm_compute. reflexivity. Qed.

Example tied_loads_12 :
  loadCSV insertion_rev_StdSort tied_fs "orderbook.csv" = Ok tied_book_12.
Proof. vm_compute. reflexivity. Qed.

Example tied_books_differ : tied_book_21 <> tied_book_12.
Proof. discriminate. Qed.

Lemma loadCSV_sort_independent_witness :
  match loadCSV insertion_StdSort tied_fs "orderbook.csv",
        loadCSV insertion_rev_StdSort tied_fs "orderbook.csv" with
  | Ok book1, Ok book2 =>
      Permutation (bids book1) (bids book2) /\
      Permutation (asks book1) (asks book2) /\
      map price (bids book1) = map price (bids book2) /\
      map price (asks book1) = map price (asks book2)
  | Throw e1, Throw e2 => e1 = e2
  | _, _ => False
  end.
Proof.
  exact (loadCSV_sort_independent insertion_StdSort insertion_rev_StdSort
           tied_fs "orderbook.csv").
Defined.

Lemma trim_decomposition_witness :
  exists pre post,
    "  bid "%string = (pre ++ trim "  bid " ++ post)%string /\
    all_ws pre = true /\ all_ws post = true.
Proof. exact (proj1 (trim_decomposition "  bid ")). Defined.

Lemma trim_empty_iff_blank_witness : trim "   " = "".
Proof. apply (trim_empty_iff_blank "   "). reflexivity. Defined.
